(** * video-server: the Hono/Bun upload, listing, deletion and streaming API

    A shallow embedding of the two server programs of the repository,

    - [Be]    : src/be/index.ts, the MP4 server (/api/videos, /api/upload,
                /api/stream), and
    - [Files] : the generalised file server (/api/files, /api/upload,
                /api/stream with mime-types),

    over a small model of the JavaScript runtime they run on:

    - strings are [string]s of 8-bit characters;
    - a JavaScript number is a [jsnum]: [NaN] or an integer.  Integer
      arithmetic is exact, which is what the runtime computes as long as the
      values stay within the safe-integer range (at most 2^53 in absolute
      value); statements over arbitrary numerals carry that bound;
    - the uploads directory is a finite map from entry names to regular
      files; the route parameter [:filename] is one non-empty segment of
      a request path whose dot segments are already removed, so that once
      the security check has passed [path.join(UPLOADS_DIR, filename)]
      names the entry [filename] of that directory. *)

From Stdlib Require Import ZArith NArith Lia Ascii String List.
From Stdlib Require Import Decimal DecimalString DecimalPos DecimalN.
From stdpp Require Import gmap strings list sorting.

Local Open Scope Z_scope.
Local Arguments String.append : simpl nomatch.

(** ** JavaScript strings *)

Module JsString.

Definition is_digit (c : ascii) : bool :=
  let n := N_of_ascii c in ((48 <=? n) && (n <=? 57))%N.

(** [s.startsWith(p)] *)
Fixpoint startsWith (s p : string) : bool :=
  match p, s with
  | EmptyString, _ => true
  | String a p', String b s' => if Ascii.eqb a b then startsWith s' p' else false
  | String _ _, EmptyString => false
  end.

(** The rest of [s] after the prefix [p], when [s] starts with [p]. *)
Fixpoint after_prefix (s p : string) : option string :=
  match p, s with
  | EmptyString, _ => Some s
  | String a p', String b s' => if Ascii.eqb a b then after_prefix s' p' else None
  | String _ _, EmptyString => None
  end.

(** [s.includes(sub)] *)
Fixpoint includes (s sub : string) : bool :=
  if startsWith s sub then true
  else match s with
       | EmptyString => false
       | String _ s' => includes s' sub
       end.

(** [s.replace(/pat/, rep)] for a pattern of literal characters: the
    first occurrence of [pat] is replaced, the rest is kept. *)
Fixpoint replace (s pat rep : string) : string :=
  match after_prefix s pat with
  | Some rest => rep +:+ rest
  | None => match s with
            | EmptyString => EmptyString
            | String c s' => String c (replace s' pat rep)
            end
  end.

(** [s.split(sep)] for a separator of one character. *)
Fixpoint split (s : string) (sep : ascii) : list string :=
  match s with
  | EmptyString => [EmptyString]
  | String c s' =>
      if Ascii.eqb c sep then EmptyString :: split s' sep
      else match split s' sep with
           | h :: t => String c h :: t
           | [] => [String c EmptyString]
           end
  end.

Definition lower (c : ascii) : ascii :=
  let n := N_of_ascii c in
  if ((65 <=? n) && (n <=? 90))%N then ascii_of_N (n + 32) else c.

(** [s.toLowerCase()], on the letters A to Z; no other character lowers
    to a character of an allowed extension. *)
Fixpoint toLowerCase (s : string) : string :=
  match s with
  | EmptyString => EmptyString
  | String c s' => String (lower c) (toLowerCase s')
  end.

(** The rest of [s] after its longest prefix of decimal digits. *)
Fixpoint skip_digits (s : string) : string :=
  match s with
  | String c s' => if is_digit c then skip_digits s' else s
  | EmptyString => EmptyString
  end.

(** [s.replace(/^\d+-/, "")]: a non-empty run of digits at the start of
    [s] that is followed by a hyphen is removed together with the hyphen.
    The run is the longest one: a shorter run is followed by a digit. *)
Definition strip_digits_hyphen (s : string) : string :=
  match s with
  | String c _ =>
      if is_digit c then
        match skip_digits s with
        | String "-" rest => rest
        | _ => s
        end
      else s
  | EmptyString => s
  end.

(** Truthiness of a string: the empty string is falsy. *)
Definition truthy (s : string) : bool :=
  match s with EmptyString => false | String _ _ => true end.

End JsString.

(** ** JavaScript numbers *)

Module JsNumber.

Inductive jsnum : Type :=
| NaN
| Num (z : Z).

Definition add (a b : jsnum) : jsnum :=
  match a, b with
  | Num x, Num y => Num (x + y)
  | _, _ => NaN
  end.

Definition sub (a b : jsnum) : jsnum :=
  match a, b with
  | Num x, Num y => Num (x - y)
  | _, _ => NaN
  end.

(** Decimal numeral of a natural number. *)
Definition digits_of_N (n : N) : string :=
  NilZero.string_of_uint (N.to_uint n).

(** [String(z)] for an integer. *)
Definition Z_toString (z : Z) : string :=
  match z with
  | Zneg p => String "-" (digits_of_N (Npos p))
  | _ => digits_of_N (Z.to_N z)
  end.

(** [x.toString()], also the text a template literal interpolates. *)
Definition toString (x : jsnum) : string :=
  match x with
  | NaN => "NaN"
  | Num z => Z_toString z
  end.

Definition is_whitespace (c : ascii) : bool :=
  let n := N_of_ascii c in
  ((9 <=? n) && (n <=? 13) || (n =? 32) || (n =? 160))%N.

Fixpoint trim_start (s : string) : string :=
  match s with
  | String c s' => if is_whitespace c then trim_start s' else s
  | EmptyString => EmptyString
  end.

Definition digit_value (c : ascii) : option N :=
  if JsString.is_digit c then Some (N_of_ascii c - 48)%N else None.

(** Value of the longest prefix of decimal digits of [s], read after the
    digits already accumulated in [acc]. *)
Fixpoint parse_digits (acc : N) (s : string) : N :=
  match s with
  | String c s' =>
      match digit_value c with
      | Some d => parse_digits (10 * acc + d) s'
      | None => acc
      end
  | EmptyString => acc
  end.

(** [parseInt(s, 10)]: leading white space is skipped, one sign is read,
    then the longest run of decimal digits; no digit gives [NaN]. *)
Definition parseInt10 (s : string) : jsnum :=
  let t := trim_start s in
  let '(neg, u) :=
    match t with
    | String "-" r => (true, r)
    | String "+" r => (false, r)
    | _ => (false, t)
    end in
  match u with
  | String c _ =>
      if JsString.is_digit c then
        let v := Z.of_N (parse_digits 0 u) in
        Num (if neg then - v else v)
      else NaN
  | EmptyString => NaN
  end.

(** Largest magnitude up to which every integer is a JavaScript number. *)
Definition MAX_SAFE_INTEGER : Z := 2 ^ 53 - 1.

End JsNumber.

(** ** Node's [path] module (POSIX flavour) *)

Module Path.

Definition is_slash (c : ascii) : bool := Ascii.eqb c "/".
Definition is_dot (c : ascii) : bool := Ascii.eqb c ".".

Fixpoint drop_slashes (l : list ascii) : list ascii :=
  match l with
  | c :: l' => if is_slash c then drop_slashes l' else l
  | [] => []
  end.

Fixpoint until_slash (l : list ascii) : list ascii :=
  match l with
  | c :: l' => if is_slash c then [] else c :: until_slash l'
  | [] => []
  end.

(** Splits a reversed component at its first dot: the characters up to
    and including the dot, and the characters after it. *)
Fixpoint cut_at_dot (l : list ascii) : option (list ascii * list ascii) :=
  match l with
  | c :: l' =>
      if is_dot c then Some ([c], l')
      else match cut_at_dot l' with
           | Some (e, r) => Some (c :: e, r)
           | None => None
           end
  | [] => None
  end.

(** [path.extname(p)]: in the last component of [p] (trailing slashes
    apart), the text from the last dot on; empty when there is no dot,
    when the last dot opens the component, and for the component "..". *)
Definition extname (p : string) : string :=
  let base_rev := until_slash (drop_slashes (rev (list_ascii_of_string p))) in
  match cut_at_dot base_rev with
  | None => EmptyString
  | Some (ext_rev, before_rev) =>
      match before_rev with
      | [] => EmptyString
      | [c] =>
          if is_dot c && bool_decide (length ext_rev = 1%nat)
          then EmptyString
          else string_of_list_ascii (rev ext_rev)
      | _ => string_of_list_ascii (rev ext_rev)
      end
  end.

End Path.

(** ** The uploads directory *)

Module Fs.

(** A regular file: its bytes and its creation time in milliseconds. *)
Record file : Type := { content : list Byte.byte; birthtime : Z }.

(** [UPLOADS_DIR]: entry name to file. *)
Abbreviation directory := (gmap string file).

Record Stats : Type := { size : Z; st_birthtime : Z }.

Definition file_size (f : file) : Z := Z.of_nat (length (content f)).

(** [readdir(UPLOADS_DIR)]: the entry names, in the order the file
    system lists them. *)
Definition readdir (d : directory) : list string := (map_to_list d).*1.

(** [stat(path.join(UPLOADS_DIR, name))]; rejects when there is no such
    entry. *)
Definition stat (d : directory) (name : string) : option Stats :=
  match d !! name with
  | Some f => Some {| size := file_size f; st_birthtime := birthtime f |}
  | None => None
  end.

(** [existsSync(path.join(UPLOADS_DIR, name))] *)
Definition existsSync (d : directory) (name : string) : bool :=
  bool_decide (is_Some (d !! name)).

(** [unlink(path.join(UPLOADS_DIR, name))] *)
Definition unlink (d : directory) (name : string) : directory :=
  delete name d.

(** [Bun.write(path.join(UPLOADS_DIR, name), buffer)] at time [now], for
    a [name] of one segment: a new entry is created, an entry of that name
    is overwritten and keeps its creation time. *)
Definition write (d : directory) (name : string) (buffer : list Byte.byte)
    (now : Z) : directory :=
  let born := match d !! name with
              | Some old => birthtime old
              | None => now
              end in
  <[name := {| content := buffer; birthtime := born |}]> d.

(** The integer a Blob offset argument converts to. *)
Definition clamp_offset (x : JsNumber.jsnum) : Z :=
  match x with
  | JsNumber.NaN => 0
  | JsNumber.Num z => z
  end.

(** Position of offset [z] in a blob of [size] bytes: counted from the
    end when negative, and kept within the blob. *)
Definition relative (size z : Z) : Z :=
  if z <? 0 then Z.max (size + z) 0 else Z.min z size.

(** [Bun.file(p).slice(start, end)]: the bytes from [start] up to, not
    including, [end], both clamped to the file. *)
Definition slice (bytes : list Byte.byte) (start end_ : JsNumber.jsnum)
    : list Byte.byte :=
  let size := Z.of_nat (length bytes) in
  let s := relative size (clamp_offset start) in
  let e := relative size (clamp_offset end_) in
  let span := Z.max (e - s) 0 in
  take (Z.to_nat span) (drop (Z.to_nat s) bytes).

End Fs.

(** ** Requests and responses *)

Module FormData.

(** A [File] of a multipart form. *)
Record File : Type :=
  { name : string; size : Z; arrayBuffer : list Byte.byte }.

(** What [formData.get(field)] returns: [null], a string or a [File]. *)
Inductive entry : Type :=
| Null
| Text (s : string)
| Upload (f : File).

End FormData.

(** [Array.prototype.sort(compare)]: a stable sort; elements that
    [compare] does not order keep the order they came in. *)
Section JsSort.
Context {A : Type} (compare : A → A → Z).

Fixpoint sort_insert (x : A) (l : list A) : list A :=
  match l with
  | [] => [x]
  | y :: l' => if compare x y <=? 0 then x :: l else y :: sort_insert x l'
  end.

Definition js_sort (l : list A) : list A := foldr sort_insert [] l.
End JsSort.

(** [filename.includes("..") || filename.includes("/") ||
    filename.includes("\\")], the security check of the delete and stream
    handlers of both servers. *)
Definition path_traversal (filename : string) : bool :=
  JsString.includes filename ".."
  || JsString.includes filename "/"
  || JsString.includes filename "\".

(** ** HTTP responses and the ranged branch of the stream handlers *)

Module Http.

(** A response body: the JSON value of [c.json], of type [J], or the
    byte stream of [new Response(stream, ...)]. *)
Inductive body (J : Type) : Type :=
| Json (j : J)
| Stream (bytes : list Byte.byte).
Arguments Json {J} j.
Arguments Stream {J} bytes.

(** [headers] are the ones the handler sets itself. *)
Record response (J : Type) : Type :=
  { status : Z; headers : list (string * string); payload : body J }.
Arguments status {J} r.
Arguments headers {J} r.
Arguments payload {J} r.
Arguments Build_response {J} status headers payload.

(** [c.json(j, code)] *)
Definition json {J : Type} (j : J) (code : Z) : response J :=
  {| status := code; headers := []; payload := Json j |}.

(** The value of the header [key], if the response sets it. *)
Fixpoint header (hs : list (string * string)) (key : string)
    : option string :=
  match hs with
  | [] => None
  | (k, v) :: hs' => if String.eqb k key then Some v else header hs' key
  end.

Section Ranges.
Context {J : Type}.

(** [parseInt(parts[0], 10)] for
    [parts = range.replace(/bytes=/, "").split("-")] *)
Definition range_start (range : string) : JsNumber.jsnum :=
  let parts := JsString.split (JsString.replace range "bytes=" "") "-" in
  match parts !! 0%nat with
  | Some s => JsNumber.parseInt10 s
  | None => JsNumber.NaN
  end.

(** [parts[1] ? parseInt(parts[1], 10) : fileSize - 1] *)
Definition range_end (range : string) (fileSize : Z) : JsNumber.jsnum :=
  let parts := JsString.split (JsString.replace range "bytes=" "") "-" in
  match parts !! 1%nat with
  | Some s => if JsString.truthy s then JsNumber.parseInt10 s
              else JsNumber.Num (fileSize - 1)
  | None => JsNumber.Num (fileSize - 1)
  end.

(** The [Response] of the ranged branch. *)
Definition partial_content (bytes : list Byte.byte) (range : string)
    (contentType : string) : response J :=
  let fileSize := Z.of_nat (length bytes) in
  let start := range_start range in
  let end_ := range_end range fileSize in
  let chunkSize := JsNumber.add (JsNumber.sub end_ start) (JsNumber.Num 1) in
  let stream := Fs.slice bytes start (JsNumber.add end_ (JsNumber.Num 1)) in
  {| status := 206;
     headers :=
       [("Content-Range",
          "bytes " +:+ JsNumber.toString start +:+ "-"
          +:+ JsNumber.toString end_ +:+ "/"
          +:+ JsNumber.Z_toString fileSize);
        ("Accept-Ranges", "bytes");
        ("Content-Length", JsNumber.toString chunkSize);
        ("Content-Type", contentType)];
     payload := Stream stream |}.

(** The [Response] of the other branch: [file.stream()], status 200
    by default. *)
Definition full_content (bytes : list Byte.byte) (contentType : string)
    : response J :=
  let fileSize := Z.of_nat (length bytes) in
  {| status := 200;
     headers := [("Content-Length", JsNumber.Z_toString fileSize);
                 ("Content-Type", contentType)];
     payload := Stream bytes |}.
End Ranges.

(** [if (range)]: the header is present and not empty. *)
Definition given (range : option string) : option string :=
  match range with
  | Some r => if JsString.truthy r then Some r else None
  | None => None
  end.

End Http.

(** ** src/be/index.ts: the MP4 server *)

Module Be.

Record VideoFile : Type :=
  { filename : string;
    originalName : string;
    size : Z;
    uploadDate : Z;
    url : string }.

Record UploadResponse : Type :=
  { message : string;
    up_filename : string;
    up_originalName : string;
    up_size : Z;
    up_url : string }.

(** The JSON values the handlers answer with. *)
Inductive json_value : Type :=
| Error (error : string)
| Message (msg : string)
| Videos (videoFiles : list VideoFile)
| Uploaded (r : UploadResponse).

Abbreviation response := (Http.response json_value).

Definition MAX_FILE_SIZE : Z := 500 * 1024 * 1024.
Definition ALLOWED_EXTENSIONS : list string := [".mp4"].

(** The loop over [readdir]'s names; [None] when a [stat] rejects, which
    leaves the loop for the [catch]. *)
Fixpoint collect (d : Fs.directory) (files : list string)
    : option (list VideoFile) :=
  match files with
  | [] => Some []
  | file :: rest =>
      let ext := JsString.toLowerCase (Path.extname file) in
      if bool_decide (ext ∈ ALLOWED_EXTENSIONS) then
        match Fs.stat d file with
        | None => None
        | Some stats =>
            match collect d rest with
            | None => None
            | Some more =>
                Some ({| filename := file;
                         originalName := JsString.strip_digits_hyphen file;
                         size := Fs.size stats;
                         uploadDate := Fs.st_birthtime stats;
                         url := "/videos/uploads/" +:+ file |} :: more)
            end
        end
      else collect d rest
  end.

(** [(a, b) => b.uploadDate.getTime() - a.uploadDate.getTime()] *)
Definition newest_first (a b : VideoFile) : Z := uploadDate b - uploadDate a.

(** GET /api/videos *)
Definition get_api_videos (d : Fs.directory) : response :=
  match collect d (Fs.readdir d) with
  | Some videoFiles => Http.json (Videos (js_sort newest_first videoFiles)) 200
  | None => Http.json (Error "Failed to read videos") 500
  end.

(** POST /api/upload, with [entry] what [formData.get("video")] returns
    and [now] the value of [Date.now()]. *)
Definition post_api_upload (d : Fs.directory) (entry : FormData.entry)
    (now : Z) : Fs.directory * response :=
  match entry with
  | FormData.Null => (d, Http.json (Error "No file provided") 400)
  | FormData.Text s =>
      if JsString.truthy s
      then (* [file.size] is undefined and the comparison false;
              [path.extname(undefined)] throws *)
        (d, Http.json (Error "Upload failed") 500)
      else (d, Http.json (Error "No file provided") 400)
  | FormData.Upload file =>
      if FormData.size file >? MAX_FILE_SIZE then
        (d, Http.json
              (Error ("File too large. Maximum size is "
                      +:+ JsNumber.Z_toString (MAX_FILE_SIZE / 1024 / 1024)
                      +:+ "MB")) 400)
      else
        let ext := JsString.toLowerCase (Path.extname (FormData.name file)) in
        if negb (bool_decide (ext ∈ ALLOWED_EXTENSIONS)) then
          (d, Http.json (Error "Only MP4 files are allowed") 400)
        else
          let timestamp := now in
          let filename := JsNumber.Z_toString timestamp +:+ "-"
                          +:+ FormData.name file in
          let d' := Fs.write d filename (FormData.arrayBuffer file) now in
          (d', Http.json
                 (Uploaded
                    {| message := "File uploaded successfully";
                       up_filename := filename;
                       up_originalName := FormData.name file;
                       up_size := FormData.size file;
                       up_url := "/videos/uploads/" +:+ filename |}) 200)
  end.

(** DELETE /api/videos/:filename *)
Definition delete_api_videos (d : Fs.directory) (filename : string)
    : Fs.directory * response :=
  if path_traversal filename then
    (d, Http.json (Error "Invalid filename") 400)
  else if negb (Fs.existsSync d filename) then
    (d, Http.json (Error "Video not found") 404)
  else
    (Fs.unlink d filename, Http.json (Message "Video deleted successfully") 200).

(** GET /api/stream/:filename, with [range] what [c.req.header("range")]
    returns.  [Bun.file] opens the entry [existsSync] has found. *)
Definition get_api_stream (d : Fs.directory) (filename : string)
    (range : option string) : response :=
  if path_traversal filename then Http.json (Error "Invalid filename") 400
  else
    match d !! filename with
    | None => Http.json (Error "Video not found") 404
    | Some file =>
        match Http.given range with
        | Some r => Http.partial_content (Fs.content file) r "video/mp4"
        | None => Http.full_content (Fs.content file) "video/mp4"
        end
    end.

End Be.

(** ** The file server: more extensions, and media types from mime-types *)

Module Files.

Record UploadedFile : Type :=
  { filename : string;
    originalName : string;
    size : Z;
    uploadDate : Z;
    url : string;
    mimeType : option string }.

Record UploadResponse : Type :=
  { message : string;
    up_filename : string;
    up_originalName : string;
    up_size : Z;
    up_url : string;
    up_mimeType : option string }.

Inductive json_value : Type :=
| Error (error : string)
| Message (msg : string)
| Listing (uploadedFiles : list UploadedFile)
| Uploaded (r : UploadResponse).

Abbreviation response := (Http.response json_value).

Definition MAX_FILE_SIZE : Z := 500 * 1024 * 1024.
Definition ALLOWED_EXTENSIONS : list string :=
  [".mp4"; ".webm"; ".ogg"; ".mov"; ".png"; ".jpg"; ".jpeg"; ".pdf"].

(** [(a, b) => b.uploadDate.getTime() - a.uploadDate.getTime()] *)
Definition newest_first (a b : UploadedFile) : Z :=
  uploadDate b - uploadDate a.

Section Server.
(** [mime.lookup] of the package mime-types: the media type of an
    extension or path, [None] for its [false]. *)
Variable mime_lookup : string → option string.

Fixpoint collect (d : Fs.directory) (files : list string)
    : option (list UploadedFile) :=
  match files with
  | [] => Some []
  | file :: rest =>
      let ext := JsString.toLowerCase (Path.extname file) in
      if bool_decide (ext ∈ ALLOWED_EXTENSIONS) then
        match Fs.stat d file with
        | None => None
        | Some stats =>
            match collect d rest with
            | None => None
            | Some more =>
                Some ({| filename := file;
                         originalName := JsString.strip_digits_hyphen file;
                         size := Fs.size stats;
                         uploadDate := Fs.st_birthtime stats;
                         url := "/files/uploads/" +:+ file;
                         mimeType := mime_lookup ext |} :: more)
            end
        end
      else collect d rest
  end.

(** GET /api/files *)
Definition get_api_files (d : Fs.directory) : response :=
  match collect d (Fs.readdir d) with
  | Some uploadedFiles =>
      Http.json (Listing (js_sort newest_first uploadedFiles)) 200
  | None => Http.json (Error "Failed to read files") 500
  end.

(** POST /api/upload, with [entry] what [formData.get("file")] returns
    and [now] the value of [Date.now()]. *)
Definition post_api_upload (d : Fs.directory) (entry : FormData.entry)
    (now : Z) : Fs.directory * response :=
  match entry with
  | FormData.Null => (d, Http.json (Error "No file provided") 400)
  | FormData.Text s =>
      if JsString.truthy s
      then (d, Http.json (Error "Upload failed") 500)
      else (d, Http.json (Error "No file provided") 400)
  | FormData.Upload file =>
      if FormData.size file >? MAX_FILE_SIZE then
        (d, Http.json
              (Error ("File too large. Limit is "
                      +:+ JsNumber.Z_toString (MAX_FILE_SIZE / 1024 / 1024)
                      +:+ "MB")) 400)
      else
        let ext := JsString.toLowerCase (Path.extname (FormData.name file)) in
        if negb (bool_decide (ext ∈ ALLOWED_EXTENSIONS)) then
          (d, Http.json (Error ("Extension " +:+ ext +:+ " not allowed")) 400)
        else
          let timestamp := now in
          let filename := JsNumber.Z_toString timestamp +:+ "-"
                          +:+ FormData.name file in
          let d' := Fs.write d filename (FormData.arrayBuffer file) now in
          (d', Http.json
                 (Uploaded
                    {| message := "File uploaded successfully";
                       up_filename := filename;
                       up_originalName := FormData.name file;
                       up_size := FormData.size file;
                       up_url := "/files/uploads/" +:+ filename;
                       up_mimeType := mime_lookup ext |}) 200)
  end.

(** DELETE /api/files/:filename *)
Definition delete_api_files (d : Fs.directory) (filename : string)
    : Fs.directory * response :=
  if path_traversal filename then
    (d, Http.json (Error "Invalid filename") 400)
  else if negb (Fs.existsSync d filename) then
    (d, Http.json (Error "File not found") 404)
  else
    (Fs.unlink d filename, Http.json (Message "File deleted successfully") 200).

(** [mime.lookup(path.extname(filename)) || "application/octet-stream"] *)
Definition resolve_mimeType (filename : string) : string :=
  match mime_lookup (Path.extname filename) with
  | Some m => if JsString.truthy m then m else "application/octet-stream"
  | None => "application/octet-stream"
  end.

(** GET /api/stream/:filename *)
Definition get_api_stream (d : Fs.directory) (filename : string)
    (range : option string) : response :=
  if path_traversal filename then Http.json (Error "Invalid filename") 400
  else
    match d !! filename with
    | None => Http.json (Error "File not found") 404
    | Some file =>
        let mimeType := resolve_mimeType filename in
        match Http.given range with
        | Some r =>
            if JsString.startsWith mimeType "video/"
            then Http.partial_content (Fs.content file) r mimeType
            else Http.full_content (Fs.content file) mimeType
        | None => Http.full_content (Fs.content file) mimeType
        end
    end.
End Server.

End Files.

(** ** Vocabulary of the statements *)

(** Every character of [s] satisfies [P]. *)
Fixpoint all_chars (P : ascii → bool) (s : string) : bool :=
  match s with
  | EmptyString => true
  | String c s' => P c && all_chars P s'
  end.

(** [sub] occurs in [s]. *)
Definition contains (s sub : string) : Prop :=
  ∃ pre post : string, s = pre +:+ sub +:+ post.

(** A non-empty run of decimal digits. *)
Definition numeral (s : string) : Prop :=
  s ≠ EmptyString ∧ all_chars JsString.is_digit s = true.

Definition no_hyphen (s : string) : bool :=
  all_chars (λ c, negb (Ascii.eqb c "-")) s.

(** The segments of a path: the parts between separators, [/] or [\]. *)
Fixpoint path_segments (s : string) : list string :=
  match s with
  | EmptyString => [EmptyString]
  | String c s' =>
      if Ascii.eqb c "/" || Ascii.eqb c "\" then EmptyString :: path_segments s'
      else match path_segments s' with
           | h :: t => String c h :: t
           | [] => [String c EmptyString]
           end
  end.

(** A character of the ASCII range. *)
Definition is_ascii (c : ascii) : bool := (N_of_ascii c <? 128)%N.

(** A natural number the runtime represents exactly. *)
Definition safe (n : N) : Prop := Z.of_N n <= JsNumber.MAX_SAFE_INTEGER.

(** The value of a decimal numeral read from the left, after [acc]. *)
Fixpoint uint_value (acc : N) (d : uint) : N :=
  match d with
  | Nil => acc
  | D0 d => uint_value (10 * acc + 0) d
  | D1 d => uint_value (10 * acc + 1) d
  | D2 d => uint_value (10 * acc + 2) d
  | D3 d => uint_value (10 * acc + 3) d
  | D4 d => uint_value (10 * acc + 4) d
  | D5 d => uint_value (10 * acc + 5) d
  | D6 d => uint_value (10 * acc + 6) d
  | D7 d => uint_value (10 * acc + 7) d
  | D8 d => uint_value (10 * acc + 8) d
  | D9 d => uint_value (10 * acc + 9) d
  end%N.

(** Largest key first. *)
Definition descending {A : Type} (key : A → Z) (a b : A) : Prop :=
  key b <= key a.

(** The extension of [name] is one the MP4 server allows. *)
Definition be_allowed (name : string) : Prop :=
  JsString.toLowerCase (Path.extname name) ∈ Be.ALLOWED_EXTENSIONS.

(** The entry [v] of a listing describes the file [v.filename] of [d] as
    the file system has it. *)
Definition be_describes (d : Fs.directory) (v : Be.VideoFile) : Prop :=
  ∃ f, d !! Be.filename v = Some f
       ∧ Be.size v = Fs.file_size f
       ∧ Be.uploadDate v = Fs.birthtime f
       ∧ Be.originalName v = JsString.strip_digits_hyphen (Be.filename v)
       ∧ Be.url v = "/videos/uploads/" +:+ Be.filename v.

(** ** Sample data *)

Definition clip : Fs.file :=
  {| Fs.content := repeat Byte.x2a 1000; Fs.birthtime := 1700000000000 |}.

Definition notes : Fs.file :=
  {| Fs.content := [Byte.x68; Byte.x69]; Fs.birthtime := 1700000000500 |}.

Definition uploads : Fs.directory :=
  <["1700000000000-clip.mp4" := clip]> (<["notes.txt" := notes]> ∅).

Definition papers : Fs.directory := <["1700000000000-paper.pdf" := notes]> ∅.

(** A PDF stored under a name with two dots in a row. *)
Definition dotted_papers : Fs.directory :=
  <["1700000000000-my..paper.pdf" := notes]> ∅.

(** Two stored clips, and the entries the listing has for them. *)
Definition two_clips : Fs.directory :=
  <["1-a.mp4" := notes]> (<["2-b.mp4" := clip]> ∅).

Definition entry_a : Be.VideoFile :=
  {| Be.filename := "1-a.mp4";
     Be.originalName := "a.mp4";
     Be.size := 2;
     Be.uploadDate := 1700000000500;
     Be.url := "/videos/uploads/1-a.mp4" |}.

Definition entry_b : Be.VideoFile :=
  {| Be.filename := "2-b.mp4";
     Be.originalName := "b.mp4";
     Be.size := 1000;
     Be.uploadDate := 1700000000000;
     Be.url := "/videos/uploads/2-b.mp4" |}.

Definition dotted : FormData.File :=
  {| FormData.name := "my..clip.mp4"; FormData.size := 2;
     FormData.arrayBuffer := [Byte.x68; Byte.x69] |}.

(** The directory after [dotted] is uploaded into an empty one. *)
Definition dotted_uploads : Fs.directory :=
  (Be.post_api_upload ∅ (FormData.Upload dotted) 1700000000000).1.

Definition doc_exe : FormData.File :=
  {| FormData.name := "doc.exe"; FormData.size := 2;
     FormData.arrayBuffer := [Byte.x4d; Byte.x5a] |}.

Definition oversized : FormData.File :=
  {| FormData.name := "big.mp4"; FormData.size := 524288001;
     FormData.arrayBuffer := [] |}.

Definition clip_upload : FormData.File :=
  {| FormData.name := "clip.mp4"; FormData.size := 3;
     FormData.arrayBuffer := [Byte.x00; Byte.x01; Byte.x02] |}.

(** Requests for the sample clip. *)
Definition clip_request (range : string) : Be.response :=
  Be.get_api_stream uploads "1700000000000-clip.mp4" (Some range).

(** An excerpt of the table of mime-types. *)
Definition mime_excerpt (ext : string) : option string :=
  if String.eqb ext ".mp4" then Some "video/mp4"
  else if String.eqb ext ".webm" then Some "video/webm"
  else if String.eqb ext ".png" then Some "image/png"
  else if String.eqb ext ".pdf" then Some "application/pdf"
  else if String.eqb ext ".txt" then Some "text/plain"
  else None.

(** ** Vocabulary of the further properties *)

(** No separator occurs in [s]: a name of one segment. *)
Definition no_slash (s : string) : bool :=
  all_chars (λ c, negb (Path.is_slash c)) s.

Definition no_letter_b (s : string) : bool :=
  all_chars (λ c, negb (Ascii.eqb c "b")) s.

(** [`${timestamp}-${file.name}`] for the timestamp [t]. *)
Definition stored_name (t : N) (displayName : string) : string :=
  JsNumber.Z_toString (Z.of_N t) +:+ "-" +:+ displayName.

(** The MP4 server accepts [file]: it is within the size limit and its
    extension is allowed. *)
Definition be_accepts (file : FormData.File) : Prop :=
  FormData.size file <= Be.MAX_FILE_SIZE ∧ be_allowed (FormData.name file).

(** [v] is an entry of the listing of [d]. *)
Definition be_listed (d : Fs.directory) (v : Be.VideoFile) : Prop :=
  ∃ l, Be.get_api_videos d = Http.json (Be.Videos l) 200 ∧ v ∈ l.

(** The extension of [name] is one the file server allows. *)
Definition files_allowed (name : string) : Prop :=
  JsString.toLowerCase (Path.extname name) ∈ Files.ALLOWED_EXTENSIONS.

(** The entry [v] of a listing of the file server describes the file
    [v.filename] of [d]. *)
Definition files_describes (mime_lookup : string → option string)
    (d : Fs.directory) (v : Files.UploadedFile) : Prop :=
  ∃ f, d !! Files.filename v = Some f
       ∧ Files.size v = Fs.file_size f
       ∧ Files.uploadDate v = Fs.birthtime f
       ∧ Files.originalName v = JsString.strip_digits_hyphen (Files.filename v)
       ∧ Files.url v = "/files/uploads/" +:+ Files.filename v
       ∧ Files.mimeType v
         = mime_lookup (JsString.toLowerCase (Path.extname (Files.filename v))).

(** The bytes of a streamed answer. *)
Definition streamed {J : Type} (r : Http.response J) : option (list Byte.byte) :=
  match Http.payload r with
  | Http.Stream bytes => Some bytes
  | Http.Json _ => None
  end.

Definition shouting : FormData.File :=
  {| FormData.name := "CLIP.MP4"; FormData.size := 3;
     FormData.arrayBuffer := [Byte.x00; Byte.x01; Byte.x02] |}.

Definition clip_again : FormData.File :=
  {| FormData.name := "clip.mp4"; FormData.size := 1;
     FormData.arrayBuffer := [Byte.xff] |}.

Definition webm_uploads : Fs.directory := <["7-talk.webm" := clip]> ∅.

Definition bin_uploads : Fs.directory := <["data.bin" := notes]> ∅.

(** * Facts about the runtime model *)

(** ** Strings *)

Section StringFacts.
Import JsString.

Lemma app_assoc_string (a b c : string) : (a +:+ b) +:+ c = a +:+ b +:+ c.
Proof. induction a as [|x a IH]; simpl; [done | by rewrite IH]. Qed.

Lemma startsWith_spec s p : startsWith s p = true ↔ ∃ r, s = p +:+ r.
Proof.
  revert s. induction p as [|a p IH]; intros [|b s]; simpl.
  - split; [by exists EmptyString | done].
  - split; [by exists (String b s) | done].
  - split; [done | intros [r Hr]; discriminate].
  - destruct (Ascii.eqb_spec a b) as [->|Hne].
    + rewrite IH. split; intros [r Hr]; exists r; [by rewrite Hr | by injection Hr].
    + split; [done | intros [r Hr]; injection Hr; congruence].
Qed.

Lemma includes_unfold s sub :
  includes s sub =
  if startsWith s sub then true
  else match s with
       | EmptyString => false
       | String _ s' => includes s' sub
       end.
Proof. by destruct s. Qed.

Lemma includes_spec s sub : includes s sub = true ↔ contains s sub.
Proof.
  unfold contains. induction s as [|c s IH]; rewrite includes_unfold.
  - destruct (startsWith "" sub) eqn:E.
    + apply startsWith_spec in E as [r Hr]. split; [|done].
      intros _. exists EmptyString, r. exact Hr.
    + split; [done|]. intros (pre & post & H).
      destruct pre; [|discriminate]. simpl in H.
      assert (startsWith "" sub = true) by (apply startsWith_spec; eauto).
      congruence.
  - destruct (startsWith (String c s) sub) eqn:E.
    + apply startsWith_spec in E as [r Hr]. split; [|done].
      intros _. exists EmptyString, r. exact Hr.
    + rewrite IH. split.
      * intros (pre & post & ->). by exists (String c pre), post.
      * intros (pre & post & H). destruct pre as [|x pre].
        -- simpl in H.
           assert (startsWith (String c s) sub = true)
             by (apply startsWith_spec; eauto).
           congruence.
        -- injection H as _ H. eauto.
Qed.

Lemma after_prefix_app p r : after_prefix (p +:+ r) p = Some r.
Proof. induction p as [|a p IH]; simpl; [by destruct r | by rewrite Ascii.eqb_refl]. Qed.

Lemma replace_prefix p r rep : replace (p +:+ r) p rep = rep +:+ r.
Proof.
  destruct p as [|a p]; simpl.
  - by destruct r.
  - by rewrite Ascii.eqb_refl, after_prefix_app.
Qed.

Lemma split_no_sep s sep :
  all_chars (λ c, negb (Ascii.eqb c sep)) s = true → split s sep = [s].
Proof.
  induction s as [|c s IH]; simpl; [done|].
  intros [Hc Hs]%andb_prop. apply negb_true_iff in Hc. rewrite Hc, IH; done.
Qed.

Lemma split_app_sep s r sep :
  all_chars (λ c, negb (Ascii.eqb c sep)) s = true →
  split (s +:+ String sep r) sep = s :: split r sep.
Proof.
  induction s as [|c s IH]; simpl.
  - by rewrite Ascii.eqb_refl.
  - intros [Hc Hs]%andb_prop. apply negb_true_iff in Hc. rewrite Hc, IH; done.
Qed.

Lemma all_chars_impl (P Q : ascii → bool) s :
  (∀ c, P c = true → Q c = true) → all_chars P s = true → all_chars Q s = true.
Proof.
  intros HPQ. induction s as [|c s IH]; simpl; [done|].
  intros [Hc Hs]%andb_prop. rewrite HPQ, IH; done.
Qed.

Lemma digit_not_hyphen c : is_digit c = true → negb (Ascii.eqb c "-") = true.
Proof. destruct (Ascii.eqb_spec c "-") as [->|]; [discriminate | done]. Qed.

Lemma skip_digits_app ds r :
  all_chars is_digit ds = true →
  skip_digits (ds +:+ String "-" r) = String "-" r.
Proof.
  induction ds as [|c ds IH]; simpl; [done|].
  intros [Hc Hs]%andb_prop. rewrite Hc. auto.
Qed.

Lemma strip_digits_hyphen_app ds r :
  numeral ds → strip_digits_hyphen (ds +:+ String "-" r) = r.
Proof.
  intros [Hne Hd]. destruct ds as [|c ds]; [done|].
  pose proof Hd as Hd'. simpl in Hd'. apply andb_prop in Hd' as [Hc _].
  unfold strip_digits_hyphen. cbn [String.append]. rewrite Hc.
  change (String c (ds +:+ String "-" r)) with (String c ds +:+ String "-" r).
  by rewrite skip_digits_app.
Qed.

Lemma skip_digits_numeral s rest :
  skip_digits s = String "-" rest →
  ∃ ds, all_chars is_digit ds = true ∧ s = ds +:+ String "-" rest.
Proof.
  induction s as [|c s IH]; simpl; [done|].
  destruct (is_digit c) eqn:Hc.
  - intros H. destruct (IH H) as (ds & Hds & ->).
    exists (String c ds). simpl. by rewrite Hc, Hds.
  - intros H. exists EmptyString. done.
Qed.

Lemma strip_digits_hyphen_id s :
  (¬ ∃ ds rest, numeral ds ∧ s = ds +:+ String "-" rest) →
  strip_digits_hyphen s = s.
Proof.
  intros Hno. unfold strip_digits_hyphen. destruct s as [|c s]; [done|].
  destruct (is_digit c) eqn:Hc; [|done].
  destruct (skip_digits (String c s)) as [|x rest] eqn:E; [done|].
  destruct (Ascii.eqb_spec x "-") as [->|Hx].
  - exfalso. apply Hno. apply skip_digits_numeral in E as (ds & Hds & E).
    exists ds, rest. split; [|done]. split; [|done].
    intros ->. simpl in E. injection E as -> _. discriminate.
  - destruct x as [[] [] [] [] [] [] [] []]; try done.
Qed.
End StringFacts.


(** ** Numbers and numerals *)

Section NumberFacts.
Import JsNumber.

Lemma string_of_uint_digits d :
  all_chars JsString.is_digit (NilEmpty.string_of_uint d) = true.
Proof. induction d; simpl; auto. Qed.

Lemma to_uint_not_nil n : N.to_uint n ≠ Nil.
Proof.
  destruct n; simpl; [discriminate|]. apply Unsigned.to_uint_nonnil.
Qed.

Lemma digits_of_N_eq n :
  digits_of_N n = NilEmpty.string_of_uint (N.to_uint n).
Proof.
  unfold digits_of_N, NilZero.string_of_uint.
  pose proof (to_uint_not_nil n). by destruct (N.to_uint n).
Qed.

Lemma digits_of_N_numeral n : numeral (digits_of_N n).
Proof.
  rewrite digits_of_N_eq. split; [|apply string_of_uint_digits].
  pose proof (to_uint_not_nil n). by destruct (N.to_uint n).
Qed.

Lemma parse_digits_uint d acc :
  parse_digits acc (NilEmpty.string_of_uint d) = uint_value acc d.
Proof. revert acc. induction d; intros acc; simpl; auto. Qed.

Lemma uint_value_of_lu d acc :
  (uint_value acc d
   = Unsigned.of_lu (Decimal.rev d) + acc * 10 ^ Unsigned.usize d)%N.
Proof.
  revert acc. induction d; intros acc; simpl Unsigned.usize; simpl uint_value;
    [ simpl; lia | .. ];
    unfold Decimal.rev; simpl Decimal.revapp;
    rewrite (Unsigned.of_lu_revapp d); simpl Unsigned.of_lu;
    rewrite IHd, N.pow_succ_r';
    generalize (10 ^ Unsigned.usize d)%N (Unsigned.of_lu (Decimal.rev d));
    intros; lia.
Qed.

Lemma parse_digits_of_N n : parse_digits 0 (digits_of_N n) = n.
Proof.
  rewrite digits_of_N_eq, parse_digits_uint, uint_value_of_lu.
  rewrite N.mul_0_l, N.add_0_r, <- Unsigned.of_uint_alt.
  apply DecimalN.Unsigned.of_to.
Qed.

Lemma digit_not_whitespace c :
  JsString.is_digit c = true → is_whitespace c = false.
Proof.
  unfold JsString.is_digit, is_whitespace. intros H.
  apply andb_prop in H as [H1 H2].
  apply N.leb_le in H1. apply N.leb_le in H2.
  apply orb_false_iff; split; [apply orb_false_iff; split|].
  - apply andb_false_iff. right. apply N.leb_gt. lia.
  - apply N.eqb_neq. lia.
  - apply N.eqb_neq. lia.
Qed.

Lemma parseInt10_numeral s :
  numeral s → parseInt10 s = Num (Z.of_N (parse_digits 0 s)).
Proof.
  intros [Hne Hd]. destruct s as [|c s]; [done|].
  simpl in Hd. apply andb_prop in Hd as [Hc Hs].
  unfold parseInt10. cbn [trim_start]. rewrite (digit_not_whitespace c Hc).
  destruct (Ascii.eqb_spec c "-") as [->|H1]; [discriminate|].
  destruct (Ascii.eqb_spec c "+") as [->|H2]; [discriminate|].
  assert ((let '(neg, u) :=
     match String c s with
     | String "-" r => (true, r)
     | String "+" r => (false, r)
     | _ => (false, String c s)
     end in
   match u with
   | String c0 _ =>
       if JsString.is_digit c0
       then let v := Z.of_N (parse_digits 0 u) in Num (if neg then - v else v)
       else NaN
   | EmptyString => NaN
   end) = Num (Z.of_N (parse_digits 0 (String c s)))); [|done].
  destruct c as [[] [] [] [] [] [] [] []]; try done.
Qed.

Lemma parseInt10_digits n : parseInt10 (digits_of_N n) = Num (Z.of_N n).
Proof.
  rewrite parseInt10_numeral by apply digits_of_N_numeral.
  by rewrite parse_digits_of_N.
Qed.

Lemma parseInt10_empty : parseInt10 "" = NaN.
Proof. reflexivity. Qed.
End NumberFacts.

(** ** Sorting *)

Section SortFacts.
Context {A : Type} (compare : A → A → Z).

Lemma sort_insert_perm x l : sort_insert compare x l ≡ₚ x :: l.
Proof.
  induction l as [|y l IH]; simpl; [done|].
  destruct (compare x y <=? 0); [done|].
  rewrite IH. apply Permutation_swap.
Qed.

Lemma js_sort_perm l : js_sort compare l ≡ₚ l.
Proof.
  induction l as [|x l IH]; simpl; [done|].
  by rewrite sort_insert_perm, IH.
Qed.

(** A comparator that subtracts keys, as [newest_first] does. *)
Context (key : A → Z).
Hypothesis compare_key : ∀ a b, compare a b = key b - key a.

Lemma sort_insert_sorted x l :
  Sorted (descending key) l →
  Sorted (descending key) (sort_insert compare x l).
Proof.
  induction l as [|y l IH]; simpl; intros Hl.
  - repeat constructor.
  - destruct (Z.leb_spec (compare x y) 0) as [Hle|Hgt].
    + constructor; [done|]. constructor. unfold descending.
      rewrite compare_key in Hle. lia.
    + apply Sorted_inv in Hl as [Hl Hy]. constructor; [auto|].
      rewrite compare_key in Hgt.
      destruct l as [|z l]; simpl.
      * constructor. unfold descending. lia.
      * destruct (compare x z <=? 0).
        -- constructor. unfold descending. lia.
        -- constructor. by apply HdRel_inv in Hy.
Qed.

Lemma js_sort_sorted l : StronglySorted (descending key) (js_sort compare l).
Proof.
  apply Sorted_StronglySorted.
  - intros a b c. unfold descending. lia.
  - induction l as [|x l IH]; simpl; [constructor|].
    by apply sort_insert_sorted.
Qed.
End SortFacts.

(** ** The directory and its files *)

Section FsFacts.
Implicit Types d : Fs.directory.

Lemma elem_of_readdir d name : name ∈ Fs.readdir d ↔ is_Some (d !! name).
Proof.
  unfold Fs.readdir. rewrite list_elem_of_fmap. split.
  - intros ([k f] & -> & H). apply elem_of_map_to_list in H. by exists f.
  - intros [f Hf]. exists (name, f). split; [done|].
    by apply elem_of_map_to_list.
Qed.

Lemma NoDup_readdir d : NoDup (Fs.readdir d).
Proof. apply NoDup_fst_map_to_list. Qed.

Lemma slice_length bytes (s e : Z) :
  0 <= s → s <= e →
  Z.of_nat (length (Fs.slice bytes (JsNumber.Num s) (JsNumber.Num e)))
  = Z.min e (Z.of_nat (length bytes)) - Z.min s (Z.of_nat (length bytes)).
Proof.
  intros Hs He. unfold Fs.slice, Fs.relative, Fs.clamp_offset.
  destruct (Z.ltb_spec s 0); [lia|]. destruct (Z.ltb_spec e 0); [lia|].
  rewrite length_take, length_drop. lia.
Qed.

Lemma slice_prefix bytes (e : Z) :
  0 <= e →
  Fs.slice bytes JsNumber.NaN (JsNumber.Num e) = take (Z.to_nat e) bytes.
Proof.
  intros He. unfold Fs.slice, Fs.relative, Fs.clamp_offset.
  change (0 <? 0) with false. cbv iota.
  destruct (Z.ltb_spec e 0); [lia|].
  replace (Z.min 0 (Z.of_nat (length bytes))) with 0 by lia.
  change (Z.to_nat 0) with 0%nat. rewrite drop_0.
  destruct (Z.le_gt_cases e (Z.of_nat (length bytes))).
  - f_equal. lia.
  - rewrite !take_ge by lia. done.
Qed.
End FsFacts.

(** ** The listing of the MP4 server *)

Section ListingFacts.
Implicit Types d : Fs.directory.

Lemma collect_spec d names :
  Forall (λ n, is_Some (d !! n)) names →
  ∃ l, Be.collect d names = Some l
       ∧ Be.filename <$> l = filter be_allowed names
       ∧ Forall (be_describes d) l.
Proof.
  induction names as [|n names IH]; intros Hall.
  - exists []. by repeat split.
  - apply Forall_cons in Hall as [[f Hf] Hall].
    destruct (IH Hall) as (l & Hl & Hnames & Hdesc). cbn [Be.collect].
    case_bool_decide as Hext.
    + unfold Fs.stat. rewrite Hf, Hl. eexists. split; [done|]. split.
      * rewrite filter_cons_True by done. rewrite fmap_cons, Hnames. done.
      * constructor; [|done]. exists f. by repeat split.
    + exists l. split; [done|]. split; [|done].
      by rewrite filter_cons_False.
Qed.

Lemma get_api_videos_spec d :
  ∃ l, Be.get_api_videos d = Http.json (Be.Videos l) 200
       ∧ Be.filename <$> l ≡ₚ filter be_allowed (Fs.readdir d)
       ∧ Forall (be_describes d) l
       ∧ StronglySorted (descending Be.uploadDate) l.
Proof.
  destruct (collect_spec d (Fs.readdir d)) as (l & Hl & Hnames & Hdesc).
  { apply Forall_forall. intros n. apply elem_of_readdir. }
  exists (js_sort Be.newest_first l). unfold Be.get_api_videos. rewrite Hl.
  split; [done|]. split; [|split].
  - by rewrite js_sort_perm, Hnames.
  - by rewrite js_sort_perm.
  - by apply js_sort_sorted.
Qed.

Lemma listed_iff d l name :
  Be.filename <$> l ≡ₚ filter be_allowed (Fs.readdir d) →
  name ∈ Be.filename <$> l ↔ is_Some (d !! name) ∧ be_allowed name.
Proof.
  intros ->. rewrite list_elem_of_filter, elem_of_readdir. tauto.
Qed.

Lemma delete_absent d name :
  path_traversal name = false → d !! name = None →
  Be.delete_api_videos d name
  = (d, Http.json (Be.Error "Video not found") 404).
Proof.
  intros Hvalid Hnone. unfold Be.delete_api_videos, Fs.existsSync.
  rewrite Hvalid, Hnone. rewrite bool_decide_eq_false_2; [done|].
  by intros [? ?].
Qed.

Lemma delete_present d name :
  path_traversal name = false → is_Some (d !! name) →
  Be.delete_api_videos d name
  = (delete name d, Http.json (Be.Message "Video deleted successfully") 200).
Proof.
  intros Hvalid Hsome. unfold Be.delete_api_videos, Fs.existsSync, Fs.unlink.
  rewrite Hvalid. by rewrite bool_decide_eq_true_2.
Qed.
End ListingFacts.

(** Closes [¬ be_allowed name] for a literal [name]. *)
Ltac not_allowed :=
  unfold be_allowed; vm_compute;
  let H := fresh in intros H; apply list_elem_of_singleton in H; discriminate.

(** ** The ranged branch *)

Section RangeFacts.
Import JsNumber.
Context {J : Type}.

Lemma numeral_no_hyphen s : numeral s → no_hyphen s = true.
Proof. intros [_ H]. revert H. apply all_chars_impl, digit_not_hyphen. Qed.

Lemma digits_no_hyphen n : no_hyphen (digits_of_N n) = true.
Proof. apply numeral_no_hyphen, digits_of_N_numeral. Qed.

Lemma truthy_numeral s : numeral s → JsString.truthy s = true.
Proof. intros [Hne _]. by destruct s. Qed.

Lemma Z_toString_of_N n : Z_toString (Z.of_N n) = digits_of_N n.
Proof. by destruct n. Qed.

(** A printed integer starts with a digit or a minus sign. *)
Lemma Z_toString_head z :
  ∃ c rest, Z_toString z = String c rest ∧ c ≠ "N"%char.
Proof.
  assert (Hnum : ∀ n, ∃ c rest, digits_of_N n = String c rest ∧ c ≠ "N"%char).
  { intros n. destruct (digits_of_N_numeral n) as [Hne Hd].
    destruct (digits_of_N n) as [|c rest]; [done|].
    exists c, rest. split; [done|]. intros ->. discriminate. }
  destruct z as [|p|p]; cbn [Z_toString].
  - apply Hnum.
  - apply Hnum.
  - by exists "-"%char, (digits_of_N (N.pos p)).
Qed.

Lemma range_parts s e :
  no_hyphen s = true → no_hyphen e = true →
  JsString.split
    (JsString.replace ("bytes=" +:+ s +:+ "-" +:+ e) "bytes=" "") "-"
  = [s; e].
Proof.
  intros Hs He. rewrite (replace_prefix "bytes=").
  change ("" +:+ s +:+ "-" +:+ e) with (s +:+ String "-" e).
  rewrite split_app_sep by done. by rewrite split_no_sep.
Qed.

Lemma range_start_parts s e :
  no_hyphen s = true → no_hyphen e = true →
  Http.range_start ("bytes=" +:+ s +:+ "-" +:+ e) = parseInt10 s.
Proof. intros Hs He. unfold Http.range_start. by rewrite range_parts. Qed.

Lemma range_end_parts s e fileSize :
  no_hyphen s = true → no_hyphen e = true →
  Http.range_end ("bytes=" +:+ s +:+ "-" +:+ e) fileSize
  = if JsString.truthy e then parseInt10 e else Num (fileSize - 1).
Proof. intros Hs He. unfold Http.range_end. by rewrite range_parts. Qed.

(** The response to [bytes=a-b]. *)
Lemma partial_content_closed bytes (a b : N) contentType :
  Http.partial_content (J:=J) bytes
    ("bytes=" +:+ digits_of_N a +:+ "-" +:+ digits_of_N b) contentType
  = {| Http.status := 206;
       Http.headers :=
         [("Content-Range",
            "bytes " +:+ digits_of_N a +:+ "-" +:+ digits_of_N b +:+ "/"
            +:+ Z_toString (Z.of_nat (length bytes)));
          ("Accept-Ranges", "bytes");
          ("Content-Length", Z_toString (Z.of_N b - Z.of_N a + 1));
          ("Content-Type", contentType)];
       Http.payload :=
         Http.Stream (Fs.slice bytes (Num (Z.of_N a)) (Num (Z.of_N b + 1))) |}.
Proof.
  unfold Http.partial_content.
  rewrite range_start_parts, range_end_parts by apply digits_no_hyphen.
  rewrite truthy_numeral by apply digits_of_N_numeral.
  rewrite !parseInt10_digits.
  cbn [add sub toString]. by rewrite !Z_toString_of_N.
Qed.

(** The response to [bytes=a-]. *)
Lemma partial_content_open bytes (a : N) contentType :
  let fileSize := Z.of_nat (length bytes) in
  Http.partial_content (J:=J) bytes
    ("bytes=" +:+ digits_of_N a +:+ "-" +:+ "") contentType
  = {| Http.status := 206;
       Http.headers :=
         [("Content-Range",
            "bytes " +:+ digits_of_N a +:+ "-" +:+ Z_toString (fileSize - 1)
            +:+ "/" +:+ Z_toString fileSize);
          ("Accept-Ranges", "bytes");
          ("Content-Length", Z_toString (fileSize - 1 - Z.of_N a + 1));
          ("Content-Type", contentType)];
       Http.payload :=
         Http.Stream (Fs.slice bytes (Num (Z.of_N a)) (Num (fileSize - 1 + 1))) |}.
Proof.
  intros fileSize. unfold Http.partial_content. fold fileSize.
  rewrite range_start_parts, range_end_parts
    by first [apply digits_no_hyphen | done].
  rewrite parseInt10_digits.
  cbn [JsString.truthy add sub toString]. by rewrite !Z_toString_of_N.
Qed.

(** The response to [bytes=-n]. *)
Lemma partial_content_suffix bytes (n : N) contentType :
  Http.range_start ("bytes=-" +:+ digits_of_N n) = NaN
  ∧ Http.partial_content (J:=J) bytes ("bytes=-" +:+ digits_of_N n) contentType
    = {| Http.status := 206;
         Http.headers :=
           [("Content-Range",
              "bytes NaN-" +:+ digits_of_N n +:+ "/"
              +:+ Z_toString (Z.of_nat (length bytes)));
            ("Accept-Ranges", "bytes");
            ("Content-Length", "NaN");
            ("Content-Type", contentType)];
         Http.payload := Http.Stream (take (N.to_nat n + 1) bytes) |}.
Proof.
  change ("bytes=-" +:+ digits_of_N n)
    with ("bytes=" +:+ "" +:+ "-" +:+ digits_of_N n).
  assert (Hstart : Http.range_start ("bytes=" +:+ "" +:+ "-" +:+ digits_of_N n)
                   = NaN).
  { by rewrite range_start_parts by first [apply digits_no_hyphen | done]. }
  split; [done|]. unfold Http.partial_content.
  rewrite Hstart, range_end_parts by first [apply digits_no_hyphen | done].
  rewrite truthy_numeral by apply digits_of_N_numeral.
  rewrite parseInt10_digits. cbn [add sub toString].
  rewrite slice_prefix by lia. rewrite Z_toString_of_N.
  do 3 f_equal. lia.
Qed.
(** The response to [bytes=-a-b], a start written with a minus sign. *)
Lemma partial_content_minus bytes (a b : N) contentType :
  let range := "bytes=-" +:+ digits_of_N a +:+ "-" +:+ digits_of_N b in
  Http.range_start range = NaN
  ∧ Http.range_end range (Z.of_nat (length bytes)) = Num (Z.of_N a)
  ∧ Http.partial_content (J:=J) bytes range contentType
    = {| Http.status := 206;
         Http.headers :=
           [("Content-Range",
              "bytes NaN-" +:+ digits_of_N a +:+ "/"
              +:+ Z_toString (Z.of_nat (length bytes)));
            ("Accept-Ranges", "bytes");
            ("Content-Length", "NaN");
            ("Content-Type", contentType)];
         Http.payload := Http.Stream (take (N.to_nat a + 1) bytes) |}.
Proof.
  intros range.
  assert (Hparts : JsString.split (JsString.replace range "bytes=" "") "-"
                   = [EmptyString; digits_of_N a; digits_of_N b]).
  { subst range.
    change ("bytes=-" +:+ digits_of_N a +:+ "-" +:+ digits_of_N b)
      with ("bytes=" +:+ "" +:+ String "-"
              (digits_of_N a +:+ String "-" (digits_of_N b))).
    rewrite (replace_prefix "bytes=").
    change ("" +:+ "" +:+ String "-"
              (digits_of_N a +:+ String "-" (digits_of_N b)))
      with ("" +:+ String "-" (digits_of_N a +:+ String "-" (digits_of_N b))).
    rewrite split_app_sep by done.
    rewrite split_app_sep by apply digits_no_hyphen.
    by rewrite split_no_sep by apply digits_no_hyphen. }
  assert (Hstart : Http.range_start range = NaN)
    by (unfold Http.range_start; by rewrite Hparts).
  assert (Hend : ∀ fileSize, Http.range_end range fileSize = Num (Z.of_N a)).
  { intros fileSize. unfold Http.range_end. rewrite Hparts. cbn [lookup list_lookup].
    rewrite truthy_numeral by apply digits_of_N_numeral.
    apply parseInt10_digits. }
  split; [done|]. split; [done|]. unfold Http.partial_content.
  rewrite Hstart, Hend. cbn [add sub toString].
  rewrite slice_prefix by lia. rewrite Z_toString_of_N.
  do 3 f_equal. lia.
Qed.
End RangeFacts.

Section StreamFacts.
Implicit Types d : Fs.directory.

Lemma be_stream_present d filename file range :
  path_traversal filename = false → d !! filename = Some file →
  Be.get_api_stream d filename range
  = match Http.given range with
    | Some r => Http.partial_content (Fs.content file) r "video/mp4"
    | None => Http.full_content (Fs.content file) "video/mp4"
    end.
Proof. intros Hv Hf. unfold Be.get_api_stream. by rewrite Hv, Hf. Qed.

Lemma be_stream_ranged d filename file range :
  path_traversal filename = false → d !! filename = Some file →
  JsString.truthy range = true →
  Be.get_api_stream d filename (Some range)
  = Http.partial_content (Fs.content file) range "video/mp4".
Proof.
  intros Hv Hf Hr. rewrite (be_stream_present d filename file) by done.
  cbn [Http.given]. by rewrite Hr.
Qed.
End StreamFacts.

(** * The claims *)

(** C1, as the claim has it, fails: the file the upload handler stored
    under [1700000000000-my..clip.mp4] is there, and a stream request for
    it is answered 400, with or without Range header; and a start written
    with a minus sign does not reach the headers as a negative number:
    [bytes=-5-10] gives [bytes NaN-5/1000]. *)
Lemma stream_of_dotted_name_rejected_counterexample :
  is_Some (dotted_uploads !! "1700000000000-my..clip.mp4")
  ∧ Http.status
      (Be.get_api_stream dotted_uploads "1700000000000-my..clip.mp4" None)
    = 400
  ∧ Http.status
      (Be.get_api_stream dotted_uploads "1700000000000-my..clip.mp4"
         (Some "bytes=0-99"))
    = 400
  ∧ Http.header (Http.headers (clip_request "bytes=-5-10")) "Content-Range"
    = Some "bytes NaN-5/1000".
Proof.
  split; [by vm_compute; eauto|]. split; [reflexivity|].
  split; reflexivity.
Qed.

(** C1, amended: a stream request for a stored file whose name passes the
    security check answers, without a Range header, 200 with the whole
    file and Content-Length the file's size; with [bytes=start-end], 206
    with Content-Range [bytes start-end/totalSize], Accept-Ranges [bytes]
    and Content-Length [end - start + 1], where an omitted end is
    [totalSize - 1].  Nothing is checked: [start] and [end] reach the
    headers and [slice] as they were parsed, whatever their order or
    size, and every non-empty Range header is answered with 206.  A start
    written with a minus sign, [bytes=-a-b], is not rejected either, but
    it is not passed on as a negative number: the start is [NaN] and the
    end is [a].  For 1000 bytes: length 1000; [bytes=0-99] gives
    [bytes 0-99/1000] and length 100; [bytes=500-] gives
    [bytes 500-999/1000] and length 500. *)
Theorem stream_range_resolution
    (d : Fs.directory) (filename : string) (file : Fs.file) :
  path_traversal filename = false →
  d !! filename = Some file →
  let bytes := Fs.content file in
  let totalSize := Fs.file_size file in
  let respond := Be.get_api_stream d filename in
  let get r key := Http.header (Http.headers r) key in
  (Http.status (respond None) = 200
   ∧ Http.payload (respond None) = Http.Stream bytes
   ∧ get (respond None) "Content-Length" = Some (JsNumber.Z_toString totalSize))
  ∧ (∀ start end_ : N, safe start → safe end_ →
       let r := respond (Some ("bytes=" +:+ JsNumber.digits_of_N start +:+ "-"
                               +:+ JsNumber.digits_of_N end_)) in
       Http.status r = 206
       ∧ get r "Content-Range"
         = Some ("bytes " +:+ JsNumber.digits_of_N start +:+ "-"
                 +:+ JsNumber.digits_of_N end_ +:+ "/"
                 +:+ JsNumber.Z_toString totalSize)
       ∧ get r "Accept-Ranges" = Some "bytes"
       ∧ get r "Content-Length"
         = Some (JsNumber.Z_toString (Z.of_N end_ - Z.of_N start + 1))
       ∧ Http.payload r
         = Http.Stream (Fs.slice bytes (JsNumber.Num (Z.of_N start))
                          (JsNumber.Num (Z.of_N end_ + 1))))
  ∧ (∀ start : N, safe start →
       let r := respond (Some ("bytes=" +:+ JsNumber.digits_of_N start +:+ "-"
                               +:+ "")) in
       Http.status r = 206
       ∧ get r "Content-Range"
         = Some ("bytes " +:+ JsNumber.digits_of_N start +:+ "-"
                 +:+ JsNumber.Z_toString (totalSize - 1) +:+ "/"
                 +:+ JsNumber.Z_toString totalSize)
       ∧ get r "Accept-Ranges" = Some "bytes"
       ∧ get r "Content-Length"
         = Some (JsNumber.Z_toString (totalSize - 1 - Z.of_N start + 1))
       ∧ Http.payload r
         = Http.Stream (Fs.slice bytes (JsNumber.Num (Z.of_N start))
                          (JsNumber.Num (totalSize - 1 + 1))))
  ∧ (∀ range, JsString.truthy range = true →
       Http.status (respond (Some range)) = 206)
  ∧ (∀ a b : N, safe a → safe b →
       let range := "bytes=-" +:+ JsNumber.digits_of_N a +:+ "-"
                    +:+ JsNumber.digits_of_N b in
       Http.range_start range = JsNumber.NaN
       ∧ Http.range_end range totalSize = JsNumber.Num (Z.of_N a)
       ∧ Http.status (respond (Some range)) = 206
       ∧ get (respond (Some range)) "Content-Range"
         = Some ("bytes NaN-" +:+ JsNumber.digits_of_N a +:+ "/"
                 +:+ JsNumber.Z_toString totalSize)
       ∧ get (respond (Some range)) "Content-Length" = Some "NaN")
  ∧ (totalSize = 1000 →
       get (respond None) "Content-Length" = Some "1000"
       ∧ (let r := respond (Some "bytes=0-99") in
          Http.status r = 206
          ∧ get r "Content-Range" = Some "bytes 0-99/1000"
          ∧ get r "Content-Length" = Some "100"
          ∧ Http.payload r = Http.Stream (take 100 bytes))
       ∧ (let r := respond (Some "bytes=500-") in
          Http.status r = 206
          ∧ get r "Content-Range" = Some "bytes 500-999/1000"
          ∧ get r "Content-Length" = Some "500"
          ∧ Http.payload r = Http.Stream (drop 500 bytes))).
Proof.
  intros Hvalid Hfile bytes totalSize respond get.
  assert (Hranged : ∀ range, JsString.truthy range = true →
            respond (Some range) = Http.partial_content bytes range "video/mp4")
    by (intros; by apply be_stream_ranged).
  assert (Hfull : respond None = Http.full_content bytes "video/mp4")
    by (unfold respond; by rewrite (be_stream_present d filename file)).
  split; [|split; [|split; [|split; [|split]]]].
  - by rewrite Hfull.
  - intros start end_ _ _ r. subst r.
    rewrite Hranged by done. by rewrite partial_content_closed.
  - intros start _ r. subst r.
    rewrite Hranged by done. by rewrite partial_content_open.
  - intros range Hne. by rewrite Hranged.
  - intros a b _ _ range.
    destruct (partial_content_minus (J:=Be.json_value) bytes a b "video/mp4")
      as (Hstart & Hend & Hminus).
    fold range in Hstart, Hend, Hminus.
    rewrite Hranged by done. rewrite Hminus. by repeat split.
  - intros Hsize. rewrite Hfull, !Hranged by done.
    unfold Http.partial_content, Http.full_content, get, Fs.slice.
    cbn [Http.status Http.headers Http.payload].
    change (Z.of_nat (length bytes)) with totalSize. rewrite Hsize.
    split; [done|]. split; [done|].
    split; [done|]. split; [done|]. split; [done|]. f_equal.
    change (take 500 (drop 500 bytes) = drop 500 bytes).
    apply take_ge. rewrite length_drop.
    unfold totalSize, Fs.file_size in Hsize. fold bytes in Hsize. lia.
Qed.

(** The resolution at the sample directory: [bytes=0-99] of 1000 bytes. *)
Lemma stream_range_resolution_witness :
  Http.status (clip_request "bytes=0-99") = 206
  ∧ Http.header (Http.headers (clip_request "bytes=0-99")) "Content-Range"
    = Some "bytes 0-99/1000"
  ∧ Http.header (Http.headers (clip_request "bytes=0-99")) "Content-Length"
    = Some "100".
Proof.
  unfold clip_request.
  destruct (stream_range_resolution uploads "1700000000000-clip.mp4" clip)
    as (_ & Hclosed & _ & _ & _ & H); [reflexivity | by vm_compute |].
  destruct (Hclosed 0%N 99%N) as (H1 & H2 & _ & H3 & _); [by vm_compute..|].
  by repeat split.
Defined.

(** C2, as the claim has it, fails: the MP4 server answers a Range
    request for [notes.txt], a text file by its extension, with 206; and
    on the file server a PDF stored under a name with [..] in it is
    answered 400, not with its content. *)
Lemma text_file_ranged_by_mp4_server_counterexample :
  uploads !! "notes.txt" = Some notes
  ∧ mime_excerpt (Path.extname "notes.txt") = Some "text/plain"
  ∧ JsString.startsWith "text/plain" "video/" = false
  ∧ Http.status (Be.get_api_stream uploads "notes.txt" (Some "bytes=0-0")) = 206
  ∧ is_Some (dotted_papers !! "1700000000000-my..paper.pdf")
  ∧ Http.status
      (Files.get_api_stream mime_excerpt dotted_papers
         "1700000000000-my..paper.pdf" (Some "bytes=0-0"))
    = 400.
Proof.
  split; [reflexivity|]. split; [reflexivity|]. split; [reflexivity|].
  split; [reflexivity|]. split; [by vm_compute; eauto | reflexivity].
Qed.

(** C2, amended: for a stored file whose name passes the security
    check, the file server answers 206 only when the media type resolved
    for the requested file starts with [video/]; for any other media type
    the answer is the full content, 200 with the whole file and its size
    as Content-Length, whether or not a Range header came with the
    request; for a video type a non-empty Range header is answered from
    the ranged branch.  The MP4 server resolves no media type: it answers
    every non-empty Range header from the ranged branch, labelled
    [video/mp4], whatever the extension of the file. *)
Theorem ranged_delivery_only_for_video
    (mime_lookup : string → option string)
    (d : Fs.directory) (filename : string) (file : Fs.file)
    (range : option string) :
  path_traversal filename = false →
  d !! filename = Some file →
  let mimeType := Files.resolve_mimeType mime_lookup filename in
  let r := Files.get_api_stream mime_lookup d filename range in
  (Http.status r = 206 → JsString.startsWith mimeType "video/" = true)
  ∧ (JsString.startsWith mimeType "video/" = false →
       r = Http.full_content (Fs.content file) mimeType
       ∧ Http.status r = 200
       ∧ Http.payload r = Http.Stream (Fs.content file)
       ∧ Http.header (Http.headers r) "Content-Length"
         = Some (JsNumber.Z_toString (Fs.file_size file)))
  ∧ (JsString.startsWith mimeType "video/" = true →
       ∀ rg, Http.given range = Some rg →
             r = Http.partial_content (Fs.content file) rg mimeType)
  ∧ (∀ rg, Http.given range = Some rg →
           Be.get_api_stream d filename range
           = Http.partial_content (Fs.content file) rg "video/mp4").
Proof.
  intros Hvalid Hfile mimeType r. subst r.
  unfold Files.get_api_stream. rewrite Hvalid, Hfile. fold mimeType.
  rewrite (be_stream_present d filename file) by done.
  destruct (Http.given range) as [rg|];
    destruct (JsString.startsWith mimeType "video/");
    (split; [|split; [|split]]); try done;
    try (by intros _ rg' [= <-]); by intros rg' [= <-].
Qed.

(** A PDF asked for with a Range header comes back whole. *)
Lemma ranged_delivery_witness :
  Http.status (Files.get_api_stream mime_excerpt papers
                 "1700000000000-paper.pdf" (Some "bytes=0-0")) = 200
  ∧ Http.payload (Files.get_api_stream mime_excerpt papers
                    "1700000000000-paper.pdf" (Some "bytes=0-0"))
    = Http.Stream (Fs.content notes).
Proof.
  destruct (ranged_delivery_only_for_video mime_excerpt papers
              "1700000000000-paper.pdf" notes (Some "bytes=0-0"))
    as (_ & H & _); [reflexivity | by vm_compute |].
  destruct (H eq_refl) as (_ & H1 & H2 & _). by split.
Defined.

(** C3, as the claim has it, fails: [notes.txt] lies in the uploads
    directory, its extension is not allowed, and yet the stream handler
    sends its bytes and the delete handler removes it, where a request for
    an absent file is answered otherwise. *)
Lemma unlisted_file_streamed_and_deleted_counterexample :
  uploads !! "notes.txt" = Some notes
  ∧ ¬ be_allowed "notes.txt"
  ∧ Be.get_api_stream uploads "notes.txt" None
    = Http.full_content (Fs.content notes) "video/mp4"
  ∧ Be.get_api_stream uploads "notes.txt" None
    ≠ Be.get_api_stream (delete "notes.txt" uploads) "notes.txt" None
  ∧ Be.delete_api_videos uploads "notes.txt"
    = (delete "notes.txt" uploads,
       Http.json (Be.Message "Video deleted successfully") 200)
  ∧ Be.delete_api_videos uploads "notes.txt"
    ≠ Be.delete_api_videos (delete "notes.txt" uploads) "notes.txt".
Proof.
  split; [reflexivity|]. split; [not_allowed|].
  split; [reflexivity|]. split; [by vm_compute|].
  split; [reflexivity|]. by vm_compute.
Qed.

(** C3, amended: a file of the uploads directory whose extension is not
    allowed is left out of the listing; the stream and delete handlers do
    not look at the extension, and for a name that passes the security
    check they send and remove such a file like any other. *)
Theorem unlisted_extension_hidden_from_listing_only
    (d : Fs.directory) (name : string) (f : Fs.file) :
  d !! name = Some f →
  ¬ be_allowed name →
  (∃ l, Be.get_api_videos d = Http.json (Be.Videos l) 200
        ∧ name ∉ Be.filename <$> l)
  ∧ (path_traversal name = false →
       Be.get_api_stream d name None
       = Http.full_content (Fs.content f) "video/mp4"
       ∧ (∀ r, JsString.truthy r = true →
               Be.get_api_stream d name (Some r)
               = Http.partial_content (Fs.content f) r "video/mp4")
       ∧ Be.delete_api_videos d name
         = (delete name d,
            Http.json (Be.Message "Video deleted successfully") 200)).
Proof.
  intros Hf Hext. split.
  - destruct (get_api_videos_spec d) as (l & Hl & Hperm & _).
    exists l. split; [done|]. rewrite (listed_iff d l name Hperm). tauto.
  - intros Hvalid. split; [|split].
    + by rewrite (be_stream_present d name f).
    + intros r Hr. by apply be_stream_ranged.
    + apply delete_present; eauto.
Qed.

(** [notes.txt] is not listed and is streamed. *)
Lemma unlisted_extension_witness :
  (∃ l, Be.get_api_videos uploads = Http.json (Be.Videos l) 200
        ∧ "notes.txt" ∉ Be.filename <$> l)
  ∧ Be.get_api_stream uploads "notes.txt" None
    = Http.full_content (Fs.content notes) "video/mp4".
Proof.
  destruct (unlisted_extension_hidden_from_listing_only
              uploads "notes.txt" notes eq_refl) as (H1 & H2); [not_allowed|].
  split; [exact H1|]. by destruct (H2 eq_refl) as (H & _).
Defined.

(** C4, as the claim has it, fails: [a..b.mp4] is one segment, which is
    not the parent-directory segment, and has no separator in it, yet the
    security check rejects the name and the handlers answer 400. *)
Lemma name_with_inner_dots_rejected_counterexample :
  path_segments "a..b.mp4" = ["a..b.mp4"]
  ∧ (".." ∉ path_segments "a..b.mp4")
  ∧ (¬ contains "a..b.mp4" "/")
  ∧ (¬ contains "a..b.mp4" "\")
  ∧ path_traversal "a..b.mp4" = true
  ∧ Be.delete_api_videos uploads "a..b.mp4"
    = (uploads, Http.json (Be.Error "Invalid filename") 400)
  ∧ Be.get_api_stream uploads "a..b.mp4" None
    = Http.json (Be.Error "Invalid filename") 400.
Proof.
  split; [reflexivity|]. split.
  { intros H. apply list_elem_of_singleton in H. discriminate. }
  split; [by intros H%includes_spec|]. split; [by intros H%includes_spec|].
  split; [reflexivity|]. split; reflexivity.
Qed.

(** C4, amended: the security check of the delete and stream handlers,
    of both servers, rejects a name exactly when [..], [/] or [\] occurs
    anywhere in it, two dots inside a segment included;
    a rejected name is answered 400 "Invalid filename" whatever the
    directory holds, which stays as it is; any other name gets past the
    check, [1700000000000-clip.mp4] among them. *)
Theorem security_check_rejects_exactly_traversal (filename : string) :
  (path_traversal filename = true
   ↔ contains filename ".." ∨ contains filename "/" ∨ contains filename "\")
  ∧ (path_traversal filename = true →
     ∀ (d : Fs.directory) (range : option string)
       (mime_lookup : string → option string),
       Be.delete_api_videos d filename
       = (d, Http.json (Be.Error "Invalid filename") 400)
       ∧ Be.get_api_stream d filename range
         = Http.json (Be.Error "Invalid filename") 400
       ∧ Files.delete_api_files d filename
         = (d, Http.json (Files.Error "Invalid filename") 400)
       ∧ Files.get_api_stream mime_lookup d filename range
         = Http.json (Files.Error "Invalid filename") 400)
  ∧ (path_traversal filename = false →
     ∀ (d : Fs.directory) (range : option string)
       (mime_lookup : string → option string),
       Http.status (Be.delete_api_videos d filename).2 ≠ 400
       ∧ Http.status (Be.get_api_stream d filename range) ≠ 400
       ∧ Http.status (Files.delete_api_files d filename).2 ≠ 400
       ∧ Http.status (Files.get_api_stream mime_lookup d filename range) ≠ 400)
  ∧ path_traversal "1700000000000-clip.mp4" = false.
Proof.
  split; [|split; [|split]].
  - unfold path_traversal. rewrite !orb_true_iff, !includes_spec. tauto.
  - intros H d range mime_lookup.
    unfold Be.delete_api_videos, Be.get_api_stream,
      Files.delete_api_files, Files.get_api_stream.
    by rewrite H.
  - intros H d range mime_lookup.
    unfold Be.delete_api_videos, Be.get_api_stream,
      Files.delete_api_files, Files.get_api_stream.
    rewrite H. repeat split.
    + by destruct (Fs.existsSync d filename).
    + destruct (d !! filename); [|done]. by destruct (Http.given range).
    + by destruct (Fs.existsSync d filename).
    + destruct (d !! filename); [|done].
      destruct (Http.given range); [|done].
      by destruct (JsString.startsWith _ _).
  - reflexivity.
Qed.

(** A traversal attempt is rejected, a stored name is not. *)
Lemma security_check_witness :
  Be.get_api_stream uploads "../../etc/passwd" None
  = Http.json (Be.Error "Invalid filename") 400
  ∧ Http.status (Be.delete_api_videos uploads "1700000000000-clip.mp4").2
    ≠ 400.
Proof.
  split.
  - destruct (security_check_rejects_exactly_traversal "../../etc/passwd")
      as (_ & H & _).
    by destruct (H eq_refl uploads None mime_excerpt) as (_ & H2 & _).
  - destruct (security_check_rejects_exactly_traversal "1700000000000-clip.mp4")
      as (_ & _ & H & _).
    by destruct (H eq_refl uploads None mime_excerpt) as (H1 & _).
Defined.

(** C5: an accepted upload of a file named [displayName] at time [t] is
    answered with, and for a name of one segment stored under, the name
    [t-displayName]; removing
    the leading digits and hyphen from that name gives [displayName]
    back.  The decoder removes one run of digits with its hyphen and no
    more, and leaves a name without such a prefix as it is. *)
Theorem stored_name_encode_decode (displayName : string) (t : N) :
  let storedName := JsNumber.Z_toString (Z.of_N t) +:+ "-" +:+ displayName in
  (∀ (d : Fs.directory) (file : FormData.File),
     FormData.name file = displayName →
     FormData.size file <= Be.MAX_FILE_SIZE →
     be_allowed displayName →
     ∃ d' r,
       Be.post_api_upload d (FormData.Upload file) (Z.of_N t)
       = (d', Http.json (Be.Uploaded r) 200)
       ∧ Be.up_filename r = storedName
       ∧ Be.up_originalName r = displayName
       ∧ (JsString.includes displayName "/" = false →
          ∃ f, d' !! storedName = Some f
               ∧ Fs.content f = FormData.arrayBuffer file))
  ∧ JsString.strip_digits_hyphen storedName = displayName
  ∧ (∀ ds rest, numeral ds →
       JsString.strip_digits_hyphen (ds +:+ "-" +:+ rest) = rest)
  ∧ (∀ s, (¬ ∃ ds rest, numeral ds ∧ s = ds +:+ "-" +:+ rest) →
       JsString.strip_digits_hyphen s = s).
Proof.
  intros storedName. split; [|split; [|split]].
  - intros d file Hname Hsize Hext. unfold Be.post_api_upload.
    destruct (Z.gtb_spec (FormData.size file) Be.MAX_FILE_SIZE) as [|_]; [lia|].
    rewrite Hname. unfold be_allowed in Hext.
    rewrite (bool_decide_eq_true_2 _ Hext). cbn [negb].
    eexists _, _. split; [reflexivity|]. cbn. split; [done|]. split; [done|].
    intros _. unfold Fs.write. rewrite lookup_insert_eq. eauto.
  - subst storedName. rewrite Z_toString_of_N.
    apply strip_digits_hyphen_app, digits_of_N_numeral.
  - intros ds rest Hds. by apply strip_digits_hyphen_app.
  - apply strip_digits_hyphen_id.
Qed.

(** An upload of [clip.mp4], and the decoder on two names. *)
Lemma stored_name_witness :
  (∃ d' r,
     Be.post_api_upload ∅ (FormData.Upload clip_upload) 1700000000000
     = (d', Http.json (Be.Uploaded r) 200)
     ∧ Be.up_filename r = "1700000000000-clip.mp4"
     ∧ Be.up_originalName r = "clip.mp4"
     ∧ (JsString.includes "clip.mp4" "/" = false →
        ∃ f, d' !! "1700000000000-clip.mp4" = Some f
             ∧ Fs.content f = FormData.arrayBuffer clip_upload))
  ∧ JsString.strip_digits_hyphen "12-34-x" = "34-x"
  ∧ JsString.strip_digits_hyphen "clip.mp4" = "clip.mp4".
Proof.
  destruct (stored_name_encode_decode "clip.mp4" 1700000000000)
    as (Hup & _ & Hstrip & Hid).
  split; [|split].
  - apply Hup; [reflexivity | by vm_compute |].
    unfold be_allowed. vm_compute. left.
  - apply (Hstrip "12" "34-x"). split; [discriminate | reflexivity].
  - apply Hid. intros (ds & rest & [Hne Hd] & H).
    destruct ds as [|c ds]; [done|].
    injection H as <- _. discriminate.
Defined.

(** C6: an upload without a file, with a file larger than 500 MiB or
    with a file whose extension is not allowed is answered 400, and the
    uploads directory is then what it was; no answer other than 200
    comes with a changed directory. *)
Theorem rejected_upload_writes_nothing
    (d : Fs.directory) (entry : FormData.entry) (now : Z) :
  let result := Be.post_api_upload d entry now in
  (entry = FormData.Null →
     result = (d, Http.json (Be.Error "No file provided") 400))
  ∧ (∀ file, entry = FormData.Upload file →
       FormData.size file > Be.MAX_FILE_SIZE →
       result.1 = d ∧ Http.status result.2 = 400)
  ∧ (∀ file, entry = FormData.Upload file →
       ¬ be_allowed (FormData.name file) →
       result.1 = d ∧ Http.status result.2 = 400)
  ∧ (Http.status result.2 ≠ 200 → result.1 = d)
  ∧ Be.MAX_FILE_SIZE = 500 * 2 ^ 20.
Proof.
  intros result. subst result. unfold Be.post_api_upload.
  split; [|split; [|split; [|split]]].
  - by intros ->.
  - intros file -> Hsize.
    destruct (Z.gtb_spec (FormData.size file) Be.MAX_FILE_SIZE); [done | lia].
  - intros file -> Hext. unfold be_allowed in Hext.
    destruct (FormData.size file >? Be.MAX_FILE_SIZE); [done|].
    by rewrite (bool_decide_eq_false_2 _ Hext).
  - destruct entry as [|s|file]; [done| by destruct (JsString.truthy s) |].
    destruct (FormData.size file >? Be.MAX_FILE_SIZE); [done|].
    by case_bool_decide.
  - reflexivity.
Qed.

(** The three rejections, [doc.exe] among them. *)
Lemma rejected_upload_witness :
  Be.post_api_upload uploads FormData.Null 5
  = (uploads, Http.json (Be.Error "No file provided") 400)
  ∧ ((Be.post_api_upload uploads (FormData.Upload oversized) 5).1 = uploads
     ∧ Http.status (Be.post_api_upload uploads (FormData.Upload oversized) 5).2
       = 400)
  ∧ ((Be.post_api_upload uploads (FormData.Upload doc_exe) 5).1 = uploads
     ∧ Http.status (Be.post_api_upload uploads (FormData.Upload doc_exe) 5).2
       = 400).
Proof.
  split; [|split].
  - by apply (rejected_upload_writes_nothing uploads FormData.Null 5).
  - apply (proj1 (proj2 (rejected_upload_writes_nothing
                           uploads (FormData.Upload oversized) 5)) oversized);
      [done | by vm_compute].
  - apply (proj1 (proj2 (proj2 (rejected_upload_writes_nothing
                                  uploads (FormData.Upload doc_exe) 5))) doc_exe);
      [done | not_allowed].
Defined.

(** C7, as the claim has it, fails: the upload handler stores
    [my..clip.mp4] under a name in which [..] occurs; the file is there,
    and the delete handler answers 400 and leaves it there.  A name with
    a separator that names no file is answered 400 as well, not 404. *)
Lemma stored_name_with_dots_not_removable_counterexample :
  is_Some (dotted_uploads !! "1700000000000-my..clip.mp4")
  ∧ Be.delete_api_videos dotted_uploads "1700000000000-my..clip.mp4"
    = (dotted_uploads, Http.json (Be.Error "Invalid filename") 400)
  ∧ is_Some ((Be.delete_api_videos dotted_uploads
                "1700000000000-my..clip.mp4").1
             !! "1700000000000-my..clip.mp4")
  ∧ uploads !! "a/b.mp4" = None
  ∧ Be.delete_api_videos uploads "a/b.mp4"
    = (uploads, Http.json (Be.Error "Invalid filename") 400).
Proof.
  split; [by vm_compute; eauto|].
  split; [reflexivity|]. split; [by vm_compute; eauto|].
  split; reflexivity.
Qed.

(** C7, amended: for a name that passes the security check, the delete
    handler removes the file of that name and answers 200 when there is
    one, other files staying as they are, and answers 404 when there is
    none; after a removal a second one is answered 404 and the listing
    no longer has the name.  A name that fails the check is answered 400
    whether or not a file has it. *)
Theorem remove_of_validated_name (d : Fs.directory) (name : string) :
  (path_traversal name = false → is_Some (d !! name) →
     let d' := delete name d in
     Be.delete_api_videos d name
     = (d', Http.json (Be.Message "Video deleted successfully") 200)
     ∧ d' !! name = None
     ∧ (∀ other, other ≠ name → d' !! other = d !! other)
     ∧ Be.delete_api_videos d' name
       = (d', Http.json (Be.Error "Video not found") 404)
     ∧ ∃ l, Be.get_api_videos d' = Http.json (Be.Videos l) 200
            ∧ name ∉ Be.filename <$> l)
  ∧ (path_traversal name = false → d !! name = None →
     Be.delete_api_videos d name
     = (d, Http.json (Be.Error "Video not found") 404))
  ∧ (path_traversal name = true →
     Be.delete_api_videos d name
     = (d, Http.json (Be.Error "Invalid filename") 400)).
Proof.
  split; [|split].
  - intros Hvalid Hsome d'. split; [|split; [|split; [|split]]].
    + by apply delete_present.
    + apply lookup_delete_eq.
    + intros other Hne. by apply lookup_delete_ne.
    + apply delete_absent; [done | apply lookup_delete_eq].
    + destruct (get_api_videos_spec d') as (l & Hl & Hperm & _).
      exists l. split; [done|]. rewrite (listed_iff d' l name Hperm).
      unfold d'. rewrite lookup_delete_eq. by intros [[? ?] _].
  - apply delete_absent.
  - intros Hbad. unfold Be.delete_api_videos. by rewrite Hbad.
Qed.

(** One removal of each kind at the sample directory. *)
Lemma remove_of_validated_name_witness :
  Be.delete_api_videos uploads "1700000000000-clip.mp4"
  = (delete "1700000000000-clip.mp4" uploads,
     Http.json (Be.Message "Video deleted successfully") 200)
  ∧ Be.delete_api_videos uploads "1700000000000-gone.mp4"
    = (uploads, Http.json (Be.Error "Video not found") 404)
  ∧ Be.delete_api_videos uploads "../uploads/notes.txt"
    = (uploads, Http.json (Be.Error "Invalid filename") 400).
Proof.
  split; [|split].
  - destruct (remove_of_validated_name uploads "1700000000000-clip.mp4")
      as (H & _). apply H; [reflexivity | by vm_compute; eauto].
  - destruct (remove_of_validated_name uploads "1700000000000-gone.mp4")
      as (_ & H & _). apply H; reflexivity.
  - destruct (remove_of_validated_name uploads "../uploads/notes.txt")
      as (_ & _ & H). apply H; reflexivity.
Defined.

(** C8: the listing is computed from the directory as it is at the
    call: it has one entry for each file whose extension is allowed and
    for no other name, each entry carries the size and creation time the
    file system reports for its file, and the entries come newest
    first. *)
Theorem listing_is_current_filtered_sorted (d : Fs.directory) :
  ∃ l : list Be.VideoFile,
    Be.get_api_videos d = Http.json (Be.Videos l) 200
    ∧ (∀ name, name ∈ Be.filename <$> l
               ↔ is_Some (d !! name) ∧ be_allowed name)
    ∧ NoDup (Be.filename <$> l)
    ∧ Forall (be_describes d) l
    ∧ StronglySorted (descending Be.uploadDate) l.
Proof.
  destruct (get_api_videos_spec d) as (l & Hl & Hperm & Hdesc & Hsort).
  exists l. split; [done|]. split; [|split; [|done]].
  - intros name. by apply listed_iff.
  - rewrite Hperm. apply NoDup_filter, NoDup_readdir.
Qed.

(** C9, as the claim has it, fails: the file stored under
    [1700000000000-my..clip.mp4] has two bytes, and [bytes=0-5], with the
    start inside the file and the end past it, is answered 400, not
    206. *)
Lemma overlong_range_on_dotted_name_counterexample :
  (∃ f, dotted_uploads !! "1700000000000-my..clip.mp4" = Some f
        ∧ Fs.file_size f = 2)
  ∧ Http.status
      (Be.get_api_stream dotted_uploads "1700000000000-my..clip.mp4"
         (Some "bytes=0-5"))
    = 400.
Proof.
  split; [|reflexivity]. eexists. split; [by vm_compute | reflexivity].
Qed.

(** C9, amended: for a stored file whose name passes the security check
    and [bytes=start-end] with [start] inside the file and [end] at
    or past its size, the answer is 206 and declares
    [end - start + 1] bytes, while the body holds the
    [totalSize - start] bytes the file has from [start] on, which is
    fewer. *)
Theorem overlong_range_declares_more_than_sent
    (d : Fs.directory) (filename : string) (file : Fs.file) (start end_ : N) :
  path_traversal filename = false →
  d !! filename = Some file →
  safe start → safe end_ →
  Z.of_N start < Fs.file_size file →
  Fs.file_size file <= Z.of_N end_ →
  let r := Be.get_api_stream d filename
             (Some ("bytes=" +:+ JsNumber.digits_of_N start +:+ "-"
                    +:+ JsNumber.digits_of_N end_)) in
  Http.status r = 206
  ∧ Http.header (Http.headers r) "Content-Length"
    = Some (JsNumber.Z_toString (Z.of_N end_ - Z.of_N start + 1))
  ∧ ∃ sent, Http.payload r = Http.Stream sent
            ∧ Z.of_nat (length sent) = Fs.file_size file - Z.of_N start
            ∧ Z.of_nat (length sent) < Z.of_N end_ - Z.of_N start + 1.
Proof.
  intros Hvalid Hfile _ _ Hlt Hge r. subst r.
  rewrite (be_stream_ranged d filename file) by done.
  rewrite partial_content_closed.
  split; [done|]. split; [done|]. eexists. split; [reflexivity|].
  unfold Fs.file_size in *. rewrite slice_length by lia. lia.
Qed.

(** [bytes=900-1500] of 1000 bytes: 601 declared, 100 sent. *)
Lemma overlong_range_witness :
  Http.status (clip_request "bytes=900-1500") = 206
  ∧ Http.header (Http.headers (clip_request "bytes=900-1500")) "Content-Length"
    = Some "601"
  ∧ ∃ sent, Http.payload (clip_request "bytes=900-1500") = Http.Stream sent
            ∧ Z.of_nat (length sent) = 100
            ∧ Z.of_nat (length sent) < 601.
Proof.
  unfold clip_request.
  apply (overlong_range_declares_more_than_sent
           uploads "1700000000000-clip.mp4" clip 900 1500);
    first [reflexivity | by vm_compute].
Defined.

(** C10, as the claim has it, fails: for the file stored under
    [1700000000000-my..clip.mp4] the request [bytes=-1] is rejected with
    400; and [bytes=-1000] on the clip of 1000 bytes is answered with the
    whole file, which is its last 1000 bytes. *)
Lemma suffix_range_rejected_or_whole_counterexample :
  is_Some (dotted_uploads !! "1700000000000-my..clip.mp4")
  ∧ Http.status
      (Be.get_api_stream dotted_uploads "1700000000000-my..clip.mp4"
         (Some "bytes=-1"))
    = 400
  ∧ Fs.file_size clip = 1000
  ∧ Http.payload (clip_request "bytes=-1000")
    = Http.Stream (drop (1000 - 1000) (Fs.content clip)).
Proof.
  split; [by vm_compute; eauto|]. split; [reflexivity|].
  split; reflexivity.
Qed.

(** C10, amended: for a stored file whose name passes the security
    check and [bytes=-n], the start is not a number; the request is not
    rejected, the answer is 206, [NaN] stands in Content-Range and is the
    whole of Content-Length, so that the answer never announces the last
    [n] bytes; the body is cut from the start of the file, [n + 1] bytes
    at most: it is not the last [n] bytes when the file has more than
    [n], and it is the whole file when the file has [n] bytes or
    fewer. *)
Theorem suffix_range_not_understood
    (d : Fs.directory) (filename : string) (file : Fs.file) (n : N) :
  path_traversal filename = false →
  d !! filename = Some file →
  safe n →
  let bytes := Fs.content file in
  let range := "bytes=-" +:+ JsNumber.digits_of_N n in
  let r := Be.get_api_stream d filename (Some range) in
  Http.range_start range = JsNumber.NaN
  ∧ Http.status r = 206
  ∧ Http.status r ≠ 400 ∧ Http.status r ≠ 416
  ∧ Http.header (Http.headers r) "Content-Range"
    = Some ("bytes NaN-" +:+ JsNumber.digits_of_N n +:+ "/"
            +:+ JsNumber.Z_toString (Fs.file_size file))
  ∧ Http.header (Http.headers r) "Content-Length" = Some "NaN"
  ∧ Http.header (Http.headers r) "Content-Range"
    ≠ Some ("bytes " +:+ JsNumber.Z_toString (Fs.file_size file - Z.of_N n)
            +:+ "-" +:+ JsNumber.Z_toString (Fs.file_size file - 1) +:+ "/"
            +:+ JsNumber.Z_toString (Fs.file_size file))
  ∧ Http.payload r = Http.Stream (take (N.to_nat n + 1) bytes)
  ∧ (Z.of_N n < Fs.file_size file →
     Http.payload r
     ≠ Http.Stream (drop (Z.to_nat (Fs.file_size file - Z.of_N n)) bytes))
  ∧ (Fs.file_size file <= Z.of_N n → Http.payload r = Http.Stream bytes).
Proof.
  intros Hvalid Hfile _ bytes range r.
  destruct (partial_content_suffix (J:=Be.json_value) bytes n "video/mp4")
    as [Hstart Hsuffix].
  assert (Hr : r = Http.partial_content bytes range "video/mp4")
    by (by apply be_stream_ranged).
  rewrite Hr. subst range. rewrite Hsuffix.
  split; [done|]. split; [done|]. split; [done|]. split; [done|].
  split; [done|]. split; [done|]. split.
  { cbn. intros [= Heq].
    destruct (Z_toString_head (Fs.file_size file - Z.of_N n))
      as (c & rest & Hc & Hne).
    rewrite Hc in Heq. simpl in Heq. by injection Heq as <- _. }
  split; [done|]. cbn [Http.payload]. split.
  - intros Hlt [= Heq].
    apply (f_equal length) in Heq. rewrite length_take, length_drop in Heq.
    unfold Fs.file_size in *. fold bytes in Hlt, Heq. lia.
  - intros Hge. f_equal. apply take_ge.
    unfold Fs.file_size in Hge. fold bytes in Hge. lia.
Qed.

(** [bytes=-100] of 1000 bytes. *)
Lemma suffix_range_witness :
  Http.status (clip_request "bytes=-100") = 206
  ∧ Http.header (Http.headers (clip_request "bytes=-100")) "Content-Range"
    = Some "bytes NaN-100/1000"
  ∧ Http.header (Http.headers (clip_request "bytes=-100")) "Content-Length"
    = Some "NaN"
  ∧ Http.payload (clip_request "bytes=-100")
    = Http.Stream (take 101 (Fs.content clip)).
Proof.
  unfold clip_request.
  destruct (suffix_range_not_understood
              uploads "1700000000000-clip.mp4" clip 100)
    as (_ & H1 & _ & _ & H2 & H3 & _ & H4 & _ & _);
    [reflexivity | by vm_compute | by vm_compute |].
  by repeat split.
Defined.

(** * Further properties of the two servers *)

Section WindowFacts.
Lemma slice_window bytes (s e : Z) :
  0 <= s → s <= e → e <= Z.of_nat (length bytes) →
  Fs.slice bytes (JsNumber.Num s) (JsNumber.Num e)
  = take (Z.to_nat (e - s)) (drop (Z.to_nat s) bytes).
Proof.
  intros Hs He Hsize. unfold Fs.slice, Fs.relative, Fs.clamp_offset.
  destruct (Z.ltb_spec s 0); [lia|]. destruct (Z.ltb_spec e 0); [lia|].
  rewrite !Z.min_l by lia. do 2 f_equal. lia.
Qed.

Lemma slice_empty bytes (s e : Z) :
  0 <= s → 0 <= e → (e <= s ∨ Z.of_nat (length bytes) <= s) →
  Fs.slice bytes (JsNumber.Num s) (JsNumber.Num e) = [].
Proof.
  intros Hs He Hcase. unfold Fs.slice, Fs.relative, Fs.clamp_offset.
  destruct (Z.ltb_spec s 0); [lia|]. destruct (Z.ltb_spec e 0); [lia|].
  destruct (Z.le_gt_cases (Z.of_nat (length bytes)) s).
  - rewrite (Z.min_r s) by lia. rewrite drop_ge by lia. apply take_nil.
  - replace (Z.to_nat _) with 0%nat by lia. done.
Qed.
End WindowFacts.

(** X1: for [bytes=start-end] with [start <= end] and [end] inside the
    file, the body is the bytes of the file from offset [start] to offset
    [end], both included, and Content-Length is the length of that body. *)
Theorem range_within_file_served_exactly
    (d : Fs.directory) (filename : string) (file : Fs.file) (start end_ : N) :
  path_traversal filename = false →
  d !! filename = Some file →
  safe start → safe end_ →
  (start <= end_)%N →
  Z.of_N end_ < Fs.file_size file →
  let bytes := Fs.content file in
  let r := Be.get_api_stream d filename
             (Some ("bytes=" +:+ JsNumber.digits_of_N start +:+ "-"
                    +:+ JsNumber.digits_of_N end_)) in
  ∃ sent,
    Http.payload r = Http.Stream sent
    ∧ sent = take (N.to_nat (end_ - start + 1)) (drop (N.to_nat start) bytes)
    ∧ Http.header (Http.headers r) "Content-Length"
      = Some (JsNumber.Z_toString (Z.of_nat (length sent)))
    ∧ (∀ i : nat, (i < length sent)%nat →
         sent !! i = bytes !! (N.to_nat start + i)%nat).
Proof.
  intros Hvalid Hfile _ _ Hle Hlt bytes r. subst r bytes.
  rewrite (be_stream_ranged d filename file) by done.
  rewrite partial_content_closed. cbn [Http.payload Http.headers].
  unfold Fs.file_size in Hlt.
  eexists. split; [reflexivity|]. rewrite slice_window by lia.
  replace (Z.to_nat (Z.of_N end_ + 1 - Z.of_N start))
    with (N.to_nat (end_ - start + 1)) by lia.
  replace (Z.to_nat (Z.of_N start)) with (N.to_nat start) by lia.
  split; [done|]. split.
  - cbn. do 2 f_equal. rewrite length_take, length_drop. lia.
  - intros i Hi. rewrite length_take in Hi.
    rewrite lookup_take_lt by lia. apply lookup_drop.
Qed.

Lemma range_within_file_witness :
  ∃ sent,
    Http.payload (clip_request "bytes=10-19") = Http.Stream sent
    ∧ sent = take 10 (drop 10 (Fs.content clip))
    ∧ Http.header (Http.headers (clip_request "bytes=10-19")) "Content-Length"
      = Some (JsNumber.Z_toString (Z.of_nat (length sent)))
    ∧ (∀ i : nat, (i < length sent)%nat →
         sent !! i = Fs.content clip !! (10 + i)%nat).
Proof.
  unfold clip_request.
  apply (range_within_file_served_exactly
           uploads "1700000000000-clip.mp4" clip 10 19);
    first [reflexivity | by vm_compute].
Defined.

(** X2: for [bytes=start-] with [start] at most the size of the file, the
    answer is 206, the body is the file from offset [start] to its end and
    Content-Length is its length, [totalSize - start]. *)
Theorem open_range_served_to_end
    (d : Fs.directory) (filename : string) (file : Fs.file) (start : N) :
  path_traversal filename = false →
  d !! filename = Some file →
  safe start →
  Z.of_N start <= Fs.file_size file →
  let bytes := Fs.content file in
  let r := Be.get_api_stream d filename
             (Some ("bytes=" +:+ JsNumber.digits_of_N start +:+ "-" +:+ "")) in
  Http.status r = 206
  ∧ Http.payload r = Http.Stream (drop (N.to_nat start) bytes)
  ∧ Http.header (Http.headers r) "Content-Length"
    = Some (JsNumber.Z_toString (Fs.file_size file - Z.of_N start))
  ∧ Z.of_nat (length (drop (N.to_nat start) bytes))
    = Fs.file_size file - Z.of_N start.
Proof.
  intros Hvalid Hfile _ Hle bytes r. subst r bytes.
  rewrite (be_stream_ranged d filename file) by done.
  rewrite partial_content_open. cbn [Http.status Http.payload Http.headers].
  unfold Fs.file_size in *. split; [done|]. split; [|split].
  - rewrite slice_window by lia. f_equal.
    replace (Z.to_nat (Z.of_N start)) with (N.to_nat start) by lia.
    apply take_ge. rewrite length_drop. lia.
  - cbn. do 2 f_equal. lia.
  - rewrite length_drop. lia.
Qed.

Lemma open_range_witness :
  Http.status (clip_request "bytes=1000-") = 206
  ∧ Http.payload (clip_request "bytes=1000-")
    = Http.Stream (drop 1000 (Fs.content clip))
  ∧ Http.header (Http.headers (clip_request "bytes=1000-")) "Content-Length"
    = Some "0".
Proof.
  unfold clip_request.
  destruct (open_range_served_to_end uploads "1700000000000-clip.mp4" clip 1000)
    as (H1 & H2 & H3 & _);
    [reflexivity | by vm_compute | by vm_compute | by vm_compute |].
  by repeat split.
Defined.

(** X3: for [bytes=start-end] with [end] before [start], or with
    [start] at or past the end of the file, the answer is still 206 and
    the body is empty, while Content-Length is [end - start + 1]: zero or
    negative for an inverted range, positive otherwise. *)
Theorem inverted_or_outside_range_sends_nothing
    (d : Fs.directory) (filename : string) (file : Fs.file) (start end_ : N) :
  path_traversal filename = false →
  d !! filename = Some file →
  safe start → safe end_ →
  (end_ < start)%N ∨ Fs.file_size file <= Z.of_N start →
  let r := Be.get_api_stream d filename
             (Some ("bytes=" +:+ JsNumber.digits_of_N start +:+ "-"
                    +:+ JsNumber.digits_of_N end_)) in
  Http.status r = 206
  ∧ Http.payload r = Http.Stream []
  ∧ Http.header (Http.headers r) "Content-Length"
    = Some (JsNumber.Z_toString (Z.of_N end_ - Z.of_N start + 1))
  ∧ ((end_ < start)%N → Z.of_N end_ - Z.of_N start + 1 <= 0)
  ∧ ((start <= end_)%N → 0 < Z.of_N end_ - Z.of_N start + 1).
Proof.
  intros Hvalid Hfile _ _ Hcase r. subst r.
  rewrite (be_stream_ranged d filename file) by done.
  rewrite partial_content_closed. cbn [Http.status Http.payload Http.headers].
  unfold Fs.file_size in Hcase.
  split; [done|]. split; [|split; [done|split; lia]].
  f_equal. apply slice_empty; lia.
Qed.

Lemma inverted_range_witness :
  Http.status (clip_request "bytes=5-2") = 206
  ∧ Http.payload (clip_request "bytes=5-2") = Http.Stream []
  ∧ Http.header (Http.headers (clip_request "bytes=5-2")) "Content-Length"
    = Some "-2".
Proof.
  unfold clip_request.
  destruct (inverted_or_outside_range_sends_nothing
              uploads "1700000000000-clip.mp4" clip 5 2)
    as (H1 & H2 & H3 & _);
    [reflexivity | by vm_compute | by vm_compute | by vm_compute | by left |].
  by repeat split.
Defined.

Section UnitFacts.
Lemma replace_without_unit s rep :
  no_letter_b s = true → JsString.replace s "bytes=" rep = s.
Proof.
  induction s as [|c s IH]; [done|].
  intros [Hc Hs]%andb_prop. apply negb_true_iff in Hc.
  cbn [JsString.replace JsString.after_prefix].
  rewrite Ascii.eqb_sym, Hc. by rewrite IH.
Qed.
End UnitFacts.

(** X4: the unit is optional: a non-empty Range header without the
    letter b (so [0-99], any numerals and hyphens) is answered exactly as
    the same header after [bytes=]. *)
Theorem range_unit_is_optional
    (d : Fs.directory) (filename : string) (range : string) :
  range ≠ EmptyString →
  no_letter_b range = true →
  Be.get_api_stream d filename (Some range)
  = Be.get_api_stream d filename (Some ("bytes=" +:+ range)).
Proof.
  intros Hne Hb. unfold Be.get_api_stream.
  destruct (path_traversal filename); [done|].
  destruct (d !! filename) as [file|]; [|done].
  assert (Hgiven : ∀ r, r ≠ EmptyString → Http.given (Some r) = Some r)
    by (by intros [|??]).
  rewrite !Hgiven by done.
  unfold Http.partial_content, Http.range_start, Http.range_end.
  rewrite (replace_prefix "bytes=" range "").
  rewrite replace_without_unit by done. done.
Qed.

Lemma range_unit_witness :
  Be.get_api_stream uploads "1700000000000-clip.mp4" (Some "0-99")
  = clip_request "bytes=0-99".
Proof.
  apply (range_unit_is_optional uploads "1700000000000-clip.mp4" "0-99");
    [discriminate | reflexivity].
Defined.

Section ExtnameFacts.
Import Path.

Lemma chars_app a b :
  list_ascii_of_string (a +:+ b)
  = list_ascii_of_string a ++ list_ascii_of_string b.
Proof. induction a as [|c a IH]; simpl; [done | by rewrite IH]. Qed.

Lemma string_of_chars_app l k :
  string_of_list_ascii (l ++ k)
  = string_of_list_ascii l +:+ string_of_list_ascii k.
Proof. induction l as [|c l IH]; simpl; [done | by rewrite IH]. Qed.

Lemma no_slash_chars s :
  no_slash s = true →
  Forall (λ c, is_slash c = false) (list_ascii_of_string s).
Proof.
  induction s as [|c s IH]; simpl; [constructor|].
  intros [Hc Hs]%andb_prop. apply negb_true_iff in Hc. constructor; auto.
Qed.

Lemma drop_slashes_none l :
  Forall (λ c, is_slash c = false) l → drop_slashes l = l.
Proof. destruct 1 as [|c l Hc _]; simpl; [done | by rewrite Hc]. Qed.

Lemma until_slash_none l :
  Forall (λ c, is_slash c = false) l → until_slash l = l.
Proof. induction 1 as [|c l Hc _ IH]; simpl; [done | by rewrite Hc, IH]. Qed.

(** The last component of a name without separator is the name. *)
Lemma base_of_plain_name s :
  no_slash s = true →
  until_slash (drop_slashes (rev (list_ascii_of_string s)))
  = rev (list_ascii_of_string s).
Proof.
  intros Hs. apply no_slash_chars, Forall_rev in Hs.
  by rewrite drop_slashes_none, until_slash_none.
Qed.

Lemma cut_at_dot_app l e r : cut_at_dot l = Some (e, r) → l = e ++ r.
Proof.
  revert e r. induction l as [|c l IH]; intros e r; simpl; [done|].
  destruct (is_dot c).
  - by intros [= <- <-].
  - destruct (cut_at_dot l) as [[e' r']|]; [|done].
    intros [= <- <-]. simpl. f_equal. by apply IH.
Qed.

Lemma extname_cases p :
  extname p = EmptyString
  ∨ ∃ e r, cut_at_dot (until_slash (drop_slashes (rev (list_ascii_of_string p))))
           = Some (e, r)
           ∧ r ≠ [] ∧ extname p = string_of_list_ascii (rev e).
Proof.
  unfold extname.
  destruct (cut_at_dot _) as [[e r]|]; [|by left].
  destruct r as [|c [|c' r]]; [by left | | right; by exists e, (c :: c' :: r)].
  destruct (is_dot c && bool_decide (length e = 1%nat)); [by left|].
  right. by exists e, [c].
Qed.

Lemma extname_stem_mp4 stem :
  stem ≠ EmptyString → no_slash stem = true →
  extname (stem +:+ ".mp4") = ".mp4".
Proof.
  intros Hne Hs. unfold extname.
  rewrite base_of_plain_name.
  2:{ unfold no_slash in *. revert Hs. clear.
      induction stem as [|c s IH]; simpl; [done|].
      intros [-> Hs]%andb_prop. by rewrite IH. }
  rewrite chars_app, rev_app_distr. simpl.
  destruct (rev (list_ascii_of_string stem)) as [|c [|c' r]] eqn:Hrev;
    [| by rewrite andb_false_r | done].
  apply (f_equal (@rev ascii)) in Hrev. rewrite rev_involutive in Hrev.
  by destruct stem.
Qed.

Lemma extname_mp4_stem q :
  no_slash q = true → extname q = ".mp4" →
  ∃ stem, stem ≠ EmptyString ∧ q = stem +:+ ".mp4".
Proof.
  intros Hq Hext. destruct (extname_cases q) as [H|(e & r & Hcut & Hr & H)].
  { rewrite H in Hext. discriminate. }
  rewrite base_of_plain_name in Hcut by done.
  apply cut_at_dot_app in Hcut. rewrite Hext in H.
  apply (f_equal list_ascii_of_string) in H.
  rewrite list_ascii_of_string_of_list_ascii in H.
  apply (f_equal (@rev ascii)) in Hcut.
  rewrite rev_involutive, rev_app_distr, <- H in Hcut.
  exists (string_of_list_ascii (rev r)). split.
  - destruct r as [|c r]; [done|]. simpl. rewrite string_of_chars_app.
    intros Hnil. by destruct (string_of_list_ascii (rev r)).
  - rewrite <- (string_of_list_ascii_of_string q), Hcut.
    by rewrite string_of_chars_app.
Qed.
End ExtnameFacts.

Section LowerCaseFacts.
Import Path JsString.

Lemma lower_slash c : is_slash (lower c) = is_slash c.
Proof. by destruct c as [[] [] [] [] [] [] [] []]. Qed.

Lemma lower_dot c : is_dot (lower c) = is_dot c.
Proof. by destruct c as [[] [] [] [] [] [] [] []]. Qed.

Lemma lower_digit c : is_digit c = true → lower c = c.
Proof. by destruct c as [[] [] [] [] [] [] [] []]. Qed.

Lemma chars_toLowerCase s :
  list_ascii_of_string (toLowerCase s) = List.map lower (list_ascii_of_string s).
Proof. induction s as [|c s IH]; simpl; [done | by rewrite IH]. Qed.

Lemma string_of_lower_chars l :
  string_of_list_ascii (List.map lower l) = toLowerCase (string_of_list_ascii l).
Proof. induction l as [|c l IH]; simpl; [done | by rewrite IH]. Qed.

Lemma toLowerCase_app a b :
  toLowerCase (a +:+ b) = toLowerCase a +:+ toLowerCase b.
Proof. induction a as [|c a IH]; simpl; [done | by rewrite IH]. Qed.

Lemma toLowerCase_numeral ds :
  all_chars is_digit ds = true → toLowerCase ds = ds.
Proof.
  induction ds as [|c ds IH]; simpl; [done|].
  intros [Hc Hs]%andb_prop. by rewrite lower_digit, IH.
Qed.

Lemma drop_slashes_lower l :
  drop_slashes (List.map lower l) = List.map lower (drop_slashes l).
Proof.
  induction l as [|c l IH]; simpl; [done|].
  rewrite lower_slash. by destruct (is_slash c).
Qed.

Lemma until_slash_lower l :
  until_slash (List.map lower l) = List.map lower (until_slash l).
Proof.
  induction l as [|c l IH]; simpl; [done|].
  rewrite lower_slash. destruct (is_slash c); [done|]. simpl. by rewrite IH.
Qed.

Lemma cut_at_dot_lower l :
  cut_at_dot (List.map lower l)
  = match cut_at_dot l with
    | Some (e, r) => Some (List.map lower e, List.map lower r)
    | None => None
    end.
Proof.
  induction l as [|c l IH]; simpl; [done|].
  rewrite lower_dot. destruct (is_dot c); [done|].
  rewrite IH. by destruct (cut_at_dot l) as [[e r]|].
Qed.

(** Lower-casing commutes with taking the extension. *)
Lemma extname_toLowerCase p :
  extname (toLowerCase p) = toLowerCase (extname p).
Proof.
  unfold extname.
  rewrite chars_toLowerCase, <- List.map_rev, drop_slashes_lower,
    until_slash_lower, cut_at_dot_lower.
  destruct (cut_at_dot _) as [[e r]|]; [|done].
  destruct r as [|c [|c' r]]; simpl; [done | |].
  - rewrite lower_dot, List.length_map.
    destruct (is_dot c && bool_decide (length e = 1%nat)); [done|].
    by rewrite <- List.map_rev, string_of_lower_chars.
  - by rewrite <- List.map_rev, string_of_lower_chars.
Qed.

Lemma no_slash_toLowerCase s : no_slash (toLowerCase s) = no_slash s.
Proof.
  unfold no_slash. induction s as [|c s IH]; simpl; [done|].
  by rewrite lower_slash, IH.
Qed.

Lemma no_slash_app a b : no_slash (a +:+ b) = no_slash a && no_slash b.
Proof.
  unfold no_slash. induction a as [|c a IH]; simpl; [done|].
  by rewrite IH, andb_assoc.
Qed.

Lemma be_allowed_iff name :
  be_allowed name ↔ extname (toLowerCase name) = ".mp4".
Proof.
  unfold be_allowed, Be.ALLOWED_EXTENSIONS.
  by rewrite list_elem_of_singleton, extname_toLowerCase.
Qed.
End LowerCaseFacts.

Lemma be_allowed_stem name :
  no_slash name = true →
  be_allowed name
  ↔ ∃ stem, stem ≠ EmptyString ∧ JsString.toLowerCase name = stem +:+ ".mp4".
Proof.
  intros Hname. rewrite be_allowed_iff. split.
  - apply extname_mp4_stem. by rewrite no_slash_toLowerCase.
  - intros (stem & Hne & Heq). rewrite Heq. apply extname_stem_mp4; [done|].
    assert (Hlow : no_slash (JsString.toLowerCase name) = true)
      by (by rewrite no_slash_toLowerCase).
    rewrite Heq, no_slash_app in Hlow.
    by apply andb_prop in Hlow as [? _].
Qed.

(** X10: for a name without separator, the MP4 server allows the name
    exactly when its lower-cased form is a non-empty stem followed by
    [.mp4]; an upload within the size limit is answered 200 exactly for
    these names, whatever the letter case of the extension. *)
Theorem accepted_names_end_in_mp4 (name : string) :
  no_slash name = true →
  (be_allowed name
   ↔ ∃ stem, stem ≠ EmptyString
             ∧ JsString.toLowerCase name = stem +:+ ".mp4")
  ∧ (∀ (d : Fs.directory) (file : FormData.File) (now : Z),
       FormData.name file = name →
       FormData.size file <= Be.MAX_FILE_SIZE →
       (Http.status (Be.post_api_upload d (FormData.Upload file) now).2 = 200
        ↔ ∃ stem, stem ≠ EmptyString
                  ∧ JsString.toLowerCase name = stem +:+ ".mp4")).
Proof.
  intros Hname. split; [by apply be_allowed_stem|].
  intros d file now Hfile Hsize. rewrite <- (be_allowed_stem name Hname).
  unfold Be.post_api_upload.
  destruct (Z.gtb_spec (FormData.size file) Be.MAX_FILE_SIZE); [lia|].
  rewrite Hfile. unfold be_allowed. by case_bool_decide.
Qed.

Lemma accepted_names_witness :
  be_allowed "CLIP.MP4"
  ∧ Http.status (Be.post_api_upload uploads (FormData.Upload shouting) 7).2 = 200.
Proof.
  destruct (accepted_names_end_in_mp4 "CLIP.MP4" eq_refl) as [H1 H2].
  assert (Hstem : ∃ stem, stem ≠ EmptyString
                    ∧ JsString.toLowerCase "CLIP.MP4" = stem +:+ ".mp4")
    by (by exists "clip").
  split; [by apply H1|].
  apply (H2 uploads shouting 7); [reflexivity | by vm_compute | exact Hstem].
Defined.

Section UploadFacts.
Implicit Types d : Fs.directory.

Lemma stored_name_digits t name :
  stored_name t name = JsNumber.digits_of_N t +:+ String "-" name.
Proof. unfold stored_name. by rewrite Z_toString_of_N. Qed.

Lemma be_upload_accepted d file (t : N) :
  be_accepts file →
  Be.post_api_upload d (FormData.Upload file) (Z.of_N t)
  = (Fs.write d (stored_name t (FormData.name file))
       (FormData.arrayBuffer file) (Z.of_N t),
     Http.json
       (Be.Uploaded
          {| Be.message := "File uploaded successfully";
             Be.up_filename := stored_name t (FormData.name file);
             Be.up_originalName := FormData.name file;
             Be.up_size := FormData.size file;
             Be.up_url := "/videos/uploads/"
                          +:+ stored_name t (FormData.name file) |}) 200).
Proof.
  intros [Hsize Hext]. unfold Be.post_api_upload.
  destruct (Z.gtb_spec (FormData.size file) Be.MAX_FILE_SIZE); [lia|].
  unfold be_allowed in Hext. by rewrite (bool_decide_eq_true_2 _ Hext).
Qed.

Lemma digit_plain c :
  JsString.is_digit c = true →
  Path.is_slash c = false ∧ Ascii.eqb c "." = false ∧ Ascii.eqb c "\" = false.
Proof. by destruct c as [[] [] [] [] [] [] [] []]. Qed.

Lemma no_slash_digits t : no_slash (JsNumber.digits_of_N t) = true.
Proof.
  destruct (digits_of_N_numeral t) as [_ H]. revert H.
  apply all_chars_impl. intros c Hc. by destruct (digit_plain c Hc) as [-> _].
Qed.

Lemma no_slash_stored t name : no_slash (stored_name t name) = no_slash name.
Proof.
  rewrite stored_name_digits, no_slash_app, no_slash_digits. done.
Qed.

Lemma be_allowed_stored t name :
  no_slash name = true → be_allowed name → be_allowed (stored_name t name).
Proof.
  intros Hname Hext.
  apply be_allowed_stem; [by rewrite no_slash_stored|].
  apply (be_allowed_stem name Hname) in Hext as (stem & Hne & Heq).
  exists (JsNumber.digits_of_N t +:+ String "-" stem). split.
  - destruct (digits_of_N_numeral t) as [Hd _].
    by destruct (JsNumber.digits_of_N t).
  - rewrite stored_name_digits, toLowerCase_app.
    rewrite toLowerCase_numeral by apply digits_of_N_numeral.
    change (JsString.toLowerCase (String "-" name))
      with (String "-" (JsString.toLowerCase name)).
    rewrite Heq. by rewrite app_assoc_string.
Qed.

(** A prefix without the first character of [sub] hides no occurrence and
    adds none. *)
Lemma includes_after_prefix pre s a sub :
  all_chars (λ c, negb (Ascii.eqb a c)) pre = true →
  JsString.includes (pre +:+ s) (String a sub) = JsString.includes s (String a sub).
Proof.
  induction pre as [|c pre IH]; [done|].
  intros [Hc Hpre]%andb_prop. apply negb_true_iff in Hc.
  change (String c pre +:+ s) with (String c (pre +:+ s)).
  rewrite includes_unfold. cbn [JsString.startsWith]. rewrite Hc. auto.
Qed.

Lemma path_traversal_stored t name :
  path_traversal (stored_name t name) = path_traversal name.
Proof.
  rewrite stored_name_digits. unfold path_traversal.
  change (JsNumber.digits_of_N t +:+ String "-" name)
    with (JsNumber.digits_of_N t +:+ "-" +:+ name).
  rewrite <- app_assoc_string.
  assert (Hpre : ∀ a, JsString.is_digit a = false → a ≠ "-"%char →
            all_chars (λ c, negb (Ascii.eqb a c))
              (JsNumber.digits_of_N t +:+ "-") = true).
  { intros a Ha Hh. destruct (digits_of_N_numeral t) as [_ Hd].
    induction (JsNumber.digits_of_N t) as [|c ds IH]; simpl.
    - destruct (Ascii.eqb_spec a "-"); done.
    - simpl in Hd. apply andb_prop in Hd as [Hc Hd]. rewrite IH by done.
      destruct (Ascii.eqb_spec a c) as [->|]; [congruence | done]. }
  by rewrite !includes_after_prefix by (by apply Hpre).
Qed.

Lemma be_listed_iff d name :
  (∃ v, be_listed d v ∧ Be.filename v = name)
  ↔ is_Some (d !! name) ∧ be_allowed name.
Proof.
  destruct (get_api_videos_spec d) as (l & Hl & Hperm & _).
  rewrite <- (listed_iff d l name Hperm), list_elem_of_fmap. split.
  - intros (v & (l' & Hl' & Hv) & <-). exists v. split; [done|].
    rewrite Hl in Hl'. by injection Hl' as <-.
  - intros (v & -> & Hv). exists v. split; [|done]. by exists l.
Qed.

Lemma be_listed_describes d v : be_listed d v → be_describes d v.
Proof.
  intros (l & Hl & Hv).
  destruct (get_api_videos_spec d) as (l' & Hl' & _ & Hdesc & _).
  rewrite Hl in Hl'. injection Hl' as <-.
  by apply (proj1 (Forall_forall _ _) Hdesc).
Qed.
End UploadFacts.

Section ListingSetFacts.
Implicit Types d : Fs.directory.

Lemma be_describes_inj d v v' :
  be_describes d v → be_describes d v' → Be.filename v = Be.filename v' → v = v'.
Proof.
  intros (f & Hf & Hs & Hu & Ho & Hl) (f' & Hf' & Hs' & Hu' & Ho' & Hl') Hname.
  rewrite <- Hname, Hf in Hf'. injection Hf' as <-.
  destruct v, v'. simpl in *. congruence.
Qed.

(** The listing as a set: the descriptions of the allowed files. *)
Lemma be_listed_spec d v :
  be_listed d v ↔ be_describes d v ∧ be_allowed (Be.filename v).
Proof.
  split.
  - intros Hv. split; [by apply be_listed_describes|].
    apply (be_listed_iff d (Be.filename v)). eauto.
  - intros [Hdesc Hext].
    destruct (proj2 (be_listed_iff d (Be.filename v))) as (v' & Hv' & Hname).
    { split; [|done]. destruct Hdesc as (f & Hf & _). eauto. }
    assert (v' = v) as <-; [|done].
    apply (be_describes_inj d); [by apply be_listed_describes | done..].
Qed.

Lemma no_slash_includes s :
  JsString.includes s "/" = false → no_slash s = true.
Proof.
  unfold no_slash. induction s as [|c s IH]; [done|].
  rewrite includes_unfold. cbn [JsString.startsWith all_chars].
  unfold Path.is_slash. rewrite (Ascii.eqb_sym c).
  destruct (Ascii.eqb "/" c); [by destruct s | auto].
Qed.

Lemma path_traversal_no_slash s : path_traversal s = false → no_slash s = true.
Proof.
  unfold path_traversal. intros H. apply no_slash_includes.
  apply orb_false_iff in H as [H _]. by apply orb_false_iff in H as [_ H].
Qed.
End ListingSetFacts.

(** X5: after an accepted upload of a file whose name has no separator,
    the listing has an entry under the stored name, with the display name
    as [originalName], the number of bytes written as [size] and the
    [/videos/uploads/] url; the other entries of the listing are the ones
    it had before. *)
Theorem uploaded_file_is_listed
    (d : Fs.directory) (file : FormData.File) (t : N) :
  be_accepts file →
  no_slash (FormData.name file) = true →
  let d' := (Be.post_api_upload d (FormData.Upload file) (Z.of_N t)).1 in
  let storedName := stored_name t (FormData.name file) in
  (∃ v, be_listed d' v
        ∧ Be.filename v = storedName
        ∧ Be.originalName v = FormData.name file
        ∧ Be.size v = Z.of_nat (length (FormData.arrayBuffer file))
        ∧ Be.url v = "/videos/uploads/" +:+ storedName)
  ∧ (∀ v, be_listed d v → Be.filename v ≠ storedName → be_listed d' v)
  ∧ (∀ v, be_listed d' v → Be.filename v ≠ storedName → be_listed d v).
Proof.
  intros Hacc Hname d' storedName. subst d'.
  rewrite be_upload_accepted by done. cbn [fst]. fold storedName.
  assert (Hext : be_allowed storedName)
    by (apply be_allowed_stored; [done | apply Hacc]).
  split; [|split].
  - destruct (proj2 (be_listed_iff
                       (Fs.write d storedName (FormData.arrayBuffer file) (Z.of_N t))
                       storedName)) as (v & Hv & Hfn).
    { split; [|done]. unfold Fs.write. rewrite lookup_insert_eq. eauto. }
    exists v. split; [done|]. split; [done|].
    destruct (be_listed_describes _ v Hv) as (f & Hf & Hs & _ & Ho & Hu).
    rewrite Hfn in *. unfold Fs.write in Hf. rewrite lookup_insert_eq in Hf.
    injection Hf as <-. split; [|split; [done|done]].
    rewrite Ho. unfold storedName. rewrite stored_name_digits.
    apply strip_digits_hyphen_app, digits_of_N_numeral.
  - intros v Hv Hne. apply be_listed_spec in Hv as [(f & Hf & Hrest) Hv].
    apply be_listed_spec. split; [|done]. exists f. split; [|done].
    unfold Fs.write. by rewrite lookup_insert_ne.
  - intros v Hv Hne. apply be_listed_spec in Hv as [(f & Hf & Hrest) Hv].
    apply be_listed_spec. split; [|done]. exists f. split; [|done].
    unfold Fs.write in Hf. by rewrite lookup_insert_ne in Hf.
Qed.

Lemma uploaded_file_witness :
  ∃ v, be_listed (Be.post_api_upload uploads (FormData.Upload clip_upload) 42).1 v
       ∧ Be.filename v = "42-clip.mp4"
       ∧ Be.originalName v = "clip.mp4"
       ∧ Be.size v = 3
       ∧ Be.url v = "/videos/uploads/42-clip.mp4".
Proof.
  destruct (uploaded_file_is_listed uploads clip_upload 42) as (H & _);
    [ split; [by vm_compute | unfold be_allowed; vm_compute; left]
    | reflexivity | exact H ].
Defined.

(** X6: after an accepted upload of a file whose name passes the
    security check, a stream request for the stored name returns the
    uploaded bytes (whole without Range header, from the ranged branch
    with one), and a delete request removes the file again: when the
    stored name was free before, the directory is back to what it was. *)
Theorem uploaded_file_streams_back
    (d : Fs.directory) (file : FormData.File) (t : N) :
  be_accepts file →
  path_traversal (FormData.name file) = false →
  let d' := (Be.post_api_upload d (FormData.Upload file) (Z.of_N t)).1 in
  let storedName := stored_name t (FormData.name file) in
  Be.get_api_stream d' storedName None
  = Http.full_content (FormData.arrayBuffer file) "video/mp4"
  ∧ (∀ range, JsString.truthy range = true →
       Be.get_api_stream d' storedName (Some range)
       = Http.partial_content (FormData.arrayBuffer file) range "video/mp4")
  ∧ Be.delete_api_videos d' storedName
    = (delete storedName d,
       Http.json (Be.Message "Video deleted successfully") 200)
  ∧ (d !! storedName = None →
     (Be.delete_api_videos d' storedName).1 = d).
Proof.
  intros Hacc Hname d' storedName. subst d'.
  rewrite be_upload_accepted by done. cbn [fst]. fold storedName.
  assert (Hvalid : path_traversal storedName = false)
    by (unfold storedName; by rewrite path_traversal_stored).
  set (f := {| Fs.content := FormData.arrayBuffer file;
               Fs.birthtime := match d !! storedName with
                               | Some old => Fs.birthtime old
                               | None => Z.of_N t
                               end |}).
  assert (Hf : Fs.write d storedName (FormData.arrayBuffer file) (Z.of_N t)
               !! storedName = Some f)
    by (unfold Fs.write; by rewrite lookup_insert_eq).
  assert (Hdel : Be.delete_api_videos
                   (Fs.write d storedName (FormData.arrayBuffer file) (Z.of_N t))
                   storedName
                 = (delete storedName d,
                    Http.json (Be.Message "Video deleted successfully") 200)).
  { rewrite delete_present by eauto. unfold Fs.write.
    by rewrite delete_insert_eq. }
  split; [|split; [|split]].
  - by rewrite (be_stream_present _ storedName f).
  - intros range Hr. by rewrite (be_stream_ranged _ storedName f).
  - done.
  - intros Hfresh. rewrite Hdel. cbn [fst]. by apply delete_id.
Qed.

Lemma uploaded_file_streams_witness :
  Be.get_api_stream
    (Be.post_api_upload uploads (FormData.Upload clip_upload) 42).1
    "42-clip.mp4" None
  = Http.full_content [Byte.x00; Byte.x01; Byte.x02] "video/mp4"
  ∧ (Be.delete_api_videos
       (Be.post_api_upload uploads (FormData.Upload clip_upload) 42).1
       "42-clip.mp4").1 = uploads.
Proof.
  destruct (uploaded_file_streams_back uploads clip_upload 42)
    as (H1 & _ & _ & H2);
    [ split; [by vm_compute | unfold be_allowed; vm_compute; left]
    | reflexivity | ].
  split; [exact H1 | by apply H2].
Defined.

(** X7: a file whose name has [..] in it is accepted by the upload
    handler like any other [.mp4] name, is written and is listed, but
    every stream request and the delete request for its stored name are
    answered 400 "Invalid filename". *)
Theorem upload_with_two_dots_is_out_of_reach
    (d : Fs.directory) (file : FormData.File) (t : N) :
  be_accepts file →
  no_slash (FormData.name file) = true →
  contains (FormData.name file) ".." →
  let d' := (Be.post_api_upload d (FormData.Upload file) (Z.of_N t)).1 in
  let storedName := stored_name t (FormData.name file) in
  (∃ f, d' !! storedName = Some f
        ∧ Fs.content f = FormData.arrayBuffer file)
  ∧ (∃ v, be_listed d' v ∧ Be.filename v = storedName)
  ∧ (∀ range, Be.get_api_stream d' storedName range
              = Http.json (Be.Error "Invalid filename") 400)
  ∧ Be.delete_api_videos d' storedName
    = (d', Http.json (Be.Error "Invalid filename") 400).
Proof.
  intros Hacc Hname Hdots d' storedName. subst d'.
  rewrite be_upload_accepted by done. cbn [fst]. fold storedName.
  assert (Hbad : path_traversal storedName = true).
  { unfold storedName. rewrite path_traversal_stored.
    unfold path_traversal. apply includes_spec in Hdots. by rewrite Hdots. }
  split; [|split; [|split]].
  - unfold Fs.write. rewrite lookup_insert_eq. eauto.
  - apply be_listed_iff. split.
    + unfold Fs.write. rewrite lookup_insert_eq. eauto.
    + apply be_allowed_stored; [done | apply Hacc].
  - intros range. unfold Be.get_api_stream. by rewrite Hbad.
  - unfold Be.delete_api_videos. by rewrite Hbad.
Qed.

Lemma upload_with_two_dots_witness :
  (∃ v, be_listed dotted_uploads v
        ∧ Be.filename v = "1700000000000-my..clip.mp4")
  ∧ Be.get_api_stream dotted_uploads "1700000000000-my..clip.mp4" None
    = Http.json (Be.Error "Invalid filename") 400.
Proof.
  destruct (upload_with_two_dots_is_out_of_reach ∅ dotted 1700000000000)
    as (_ & H1 & H2 & _);
    [ split; [by vm_compute | unfold be_allowed; vm_compute; left]
    | reflexivity | by exists "my", "clip.mp4" | ].
  split; [exact H1 | apply H2].
Defined.

Section StoredNameFacts.
Lemma parse_digits_stops ds rest acc :
  all_chars JsString.is_digit ds = true →
  JsNumber.parse_digits acc (ds +:+ String "-" rest)
  = JsNumber.parse_digits acc ds.
Proof.
  revert acc. induction ds as [|c ds IH]; intros acc; [done|].
  intros [Hc Hd]%andb_prop. cbn [String.append JsNumber.parse_digits].
  unfold JsNumber.digit_value. rewrite Hc. by apply IH.
Qed.

Lemma stored_name_inj t1 n1 t2 n2 :
  stored_name t1 n1 = stored_name t2 n2 → t1 = t2 ∧ n1 = n2.
Proof.
  rewrite !stored_name_digits. intros Heq.
  destruct (digits_of_N_numeral t1) as [_ H1].
  destruct (digits_of_N_numeral t2) as [_ H2]. split.
  - apply (f_equal (JsNumber.parse_digits 0)) in Heq.
    rewrite !parse_digits_stops in Heq by done.
    by rewrite !parse_digits_of_N in Heq.
  - apply (f_equal JsString.skip_digits) in Heq.
    rewrite !skip_digits_app in Heq by done. by injection Heq.
Qed.
End StoredNameFacts.

(** X8: two accepted uploads at different timestamps get different
    stored names, also under one display name, and both are in the
    directory afterwards, each with its own bytes. *)
Theorem uploads_at_distinct_times_keep_both
    (d : Fs.directory) (file1 file2 : FormData.File) (t1 t2 : N) :
  be_accepts file1 → be_accepts file2 →
  no_slash (FormData.name file1) = true →
  no_slash (FormData.name file2) = true →
  t1 ≠ t2 →
  let d1 := (Be.post_api_upload d (FormData.Upload file1) (Z.of_N t1)).1 in
  let d2 := (Be.post_api_upload d1 (FormData.Upload file2) (Z.of_N t2)).1 in
  stored_name t1 (FormData.name file1) ≠ stored_name t2 (FormData.name file2)
  ∧ (∃ f, d2 !! stored_name t1 (FormData.name file1) = Some f
          ∧ Fs.content f = FormData.arrayBuffer file1)
  ∧ (∃ f, d2 !! stored_name t2 (FormData.name file2) = Some f
          ∧ Fs.content f = FormData.arrayBuffer file2).
Proof.
  intros Hacc1 Hacc2 _ _ Hne d1 d2. subst d1 d2.
  rewrite !be_upload_accepted by done. cbn [fst].
  assert (Hnames : stored_name t1 (FormData.name file1)
                   ≠ stored_name t2 (FormData.name file2))
    by (intros [? _]%stored_name_inj; done).
  split; [done|]. unfold Fs.write at 1 3. split.
  - rewrite lookup_insert_ne by done. unfold Fs.write.
    rewrite lookup_insert_eq. eauto.
  - rewrite lookup_insert_eq. eauto.
Qed.

Lemma uploads_at_distinct_times_witness :
  stored_name 41 "clip.mp4" ≠ stored_name 42 "clip.mp4"
  ∧ (∃ f, (Be.post_api_upload
             (Be.post_api_upload ∅ (FormData.Upload clip_upload) 41).1
             (FormData.Upload clip_upload) 42).1
          !! stored_name 41 "clip.mp4" = Some f
          ∧ Fs.content f = FormData.arrayBuffer clip_upload).
Proof.
  destruct (uploads_at_distinct_times_keep_both ∅ clip_upload clip_upload 41 42)
    as (H1 & H2 & _);
    [ split; [by vm_compute | unfold be_allowed; vm_compute; left]
    | split; [by vm_compute | unfold be_allowed; vm_compute; left]
    | reflexivity | reflexivity | done | ].
  by split.
Defined.

(** X9: two accepted uploads of one display name with the same
    timestamp share their stored name: the second is answered 200 as well,
    replaces the bytes of the first, adds no entry, and leaves every other
    file as it was. *)
Theorem uploads_in_same_millisecond_overwrite
    (d : Fs.directory) (file1 file2 : FormData.File) (t : N) :
  be_accepts file1 → be_accepts file2 →
  no_slash (FormData.name file1) = true →
  FormData.name file1 = FormData.name file2 →
  let d1 := (Be.post_api_upload d (FormData.Upload file1) (Z.of_N t)).1 in
  let d2 := (Be.post_api_upload d1 (FormData.Upload file2) (Z.of_N t)).1 in
  let storedName := stored_name t (FormData.name file1) in
  Http.status (Be.post_api_upload d1 (FormData.Upload file2) (Z.of_N t)).2 = 200
  ∧ (∃ f, d2 !! storedName = Some f
          ∧ Fs.content f = FormData.arrayBuffer file2)
  ∧ dom d2 = dom d1
  ∧ (∀ other, other ≠ storedName → d2 !! other = d !! other).
Proof.
  intros Hacc1 Hacc2 _ Hname d1 d2 storedName. subst d1 d2.
  rewrite !be_upload_accepted by done. cbn [fst snd].
  rewrite <- Hname. fold storedName. unfold Fs.write.
  split; [done|]. split; [|split].
  - rewrite lookup_insert_eq. eauto.
  - by rewrite !dom_insert_L, (assoc_L (∪)), (idemp_L (∪)).
  - intros other Hne. by rewrite !lookup_insert_ne.
Qed.

Lemma uploads_in_same_millisecond_witness :
  ∃ f, (Be.post_api_upload
          (Be.post_api_upload ∅ (FormData.Upload clip_upload) 42).1
          (FormData.Upload clip_again) 42).1
       !! stored_name 42 "clip.mp4" = Some f
       ∧ Fs.content f = [Byte.xff].
Proof.
  destruct (uploads_in_same_millisecond_overwrite ∅ clip_upload clip_again 42)
    as (_ & H & _);
    [ split; [by vm_compute | unfold be_allowed; vm_compute; left]
    | split; [by vm_compute | unfold be_allowed; vm_compute; left]
    | reflexivity | reflexivity | exact H ].
Defined.

(** X11: a delete request answered 200 takes the entry of that name,
    and no other, off the listing; a delete request answered otherwise
    leaves the directory as it was. *)
Theorem delete_takes_one_entry_off_the_listing
    (d : Fs.directory) (name : string) :
  let result := Be.delete_api_videos d name in
  (Http.status result.2 = 200 →
   ∀ v, be_listed result.1 v ↔ be_listed d v ∧ Be.filename v ≠ name)
  ∧ (Http.status result.2 ≠ 200 → result.1 = d).
Proof.
  intros result. subst result. unfold Be.delete_api_videos, Fs.unlink.
  destruct (path_traversal name); [by split|].
  destruct (Fs.existsSync d name); cbn [negb fst snd Http.json Http.status];
    [|by split].
  split; [|done].
  intros _ v. rewrite !be_listed_spec. unfold be_describes.
  destruct (decide (Be.filename v = name)) as [->|Hne].
  - rewrite lookup_delete_eq. split; [by intros [(f & ? & _) _] | tauto].
  - rewrite lookup_delete_ne by done. tauto.
Qed.

Lemma delete_takes_one_entry_witness :
  be_listed two_clips entry_a
  ∧ be_listed two_clips entry_b
  ∧ ¬ be_listed (Be.delete_api_videos two_clips "1-a.mp4").1 entry_a
  ∧ be_listed (Be.delete_api_videos two_clips "1-a.mp4").1 entry_b.
Proof.
  assert (Ha : be_listed two_clips entry_a).
  { exists [entry_a; entry_b]. split; [by vm_compute|]. apply list_elem_of_here. }
  assert (Hb : be_listed two_clips entry_b).
  { exists [entry_a; entry_b]. split; [by vm_compute|].
    apply list_elem_of_further, list_elem_of_here. }
  destruct (delete_takes_one_entry_off_the_listing two_clips "1-a.mp4")
    as [Hiff _].
  split; [done|]. split; [done|]. split.
  - intros Hlisted. by apply (Hiff eq_refl entry_a) in Hlisted as [_ Hne].
  - apply (Hiff eq_refl entry_b). split; [done | discriminate].
Defined.

Lemma files_listed_iff (d : Fs.directory) l name :
  Files.filename <$> l ≡ₚ filter files_allowed (Fs.readdir d) →
  name ∈ Files.filename <$> l ↔ is_Some (d !! name) ∧ files_allowed name.
Proof.
  intros ->. rewrite list_elem_of_filter, elem_of_readdir. tauto.
Qed.

Section FilesFacts.
Context (mime_lookup : string → option string).
Implicit Types d : Fs.directory.

Lemma files_collect_spec d names :
  Forall (λ n, is_Some (d !! n)) names →
  ∃ l, Files.collect mime_lookup d names = Some l
       ∧ Files.filename <$> l = filter files_allowed names
       ∧ Forall (files_describes mime_lookup d) l.
Proof.
  induction names as [|n names IH]; intros Hall.
  - exists []. by repeat split.
  - apply Forall_cons in Hall as [[f Hf] Hall].
    destruct (IH Hall) as (l & Hl & Hnames & Hdesc). cbn [Files.collect].
    case_bool_decide as Hext.
    + unfold Fs.stat. rewrite Hf, Hl. eexists. split; [done|]. split.
      * rewrite filter_cons_True by done. rewrite fmap_cons, Hnames. done.
      * constructor; [|done]. exists f. by repeat split.
    + exists l. split; [done|]. split; [|done].
      by rewrite filter_cons_False.
Qed.

Lemma get_api_files_spec d :
  ∃ l, Files.get_api_files mime_lookup d = Http.json (Files.Listing l) 200
       ∧ Files.filename <$> l ≡ₚ filter files_allowed (Fs.readdir d)
       ∧ Forall (files_describes mime_lookup d) l
       ∧ StronglySorted (descending Files.uploadDate) l.
Proof.
  destruct (files_collect_spec d (Fs.readdir d)) as (l & Hl & Hnames & Hdesc).
  { apply Forall_forall. intros n. apply elem_of_readdir. }
  exists (js_sort Files.newest_first l). unfold Files.get_api_files. rewrite Hl.
  split; [done|]. split; [|split].
  - by rewrite js_sort_perm, Hnames.
  - by rewrite js_sort_perm.
  - by apply js_sort_sorted.
Qed.

Lemma files_delete_absent d name :
  path_traversal name = false → d !! name = None →
  Files.delete_api_files d name
  = (d, Http.json (Files.Error "File not found") 404).
Proof.
  intros Hvalid Hnone. unfold Files.delete_api_files, Fs.existsSync.
  rewrite Hvalid, Hnone. rewrite bool_decide_eq_false_2; [done|].
  by intros [? ?].
Qed.

Lemma files_stream_present d filename file range :
  path_traversal filename = false → d !! filename = Some file →
  Files.get_api_stream mime_lookup d filename range
  = let mimeType := Files.resolve_mimeType mime_lookup filename in
    match Http.given range with
    | Some r =>
        if JsString.startsWith mimeType "video/"
        then Http.partial_content (Fs.content file) r mimeType
        else Http.full_content (Fs.content file) mimeType
    | None => Http.full_content (Fs.content file) mimeType
    end.
Proof. intros Hv Hf. unfold Files.get_api_stream. by rewrite Hv, Hf. Qed.
End FilesFacts.

(** X12: the listing of the file server is computed from the directory
    as it is: one entry for each file whose lower-cased extension is among
    the eight allowed, each with the size and creation time of its file,
    the display name, the [/files/uploads/] url and the media type looked
    up for the lower-cased extension, newest first. *)
Theorem files_listing_is_current_filtered_sorted
    (mime_lookup : string → option string) (d : Fs.directory) :
  ∃ l : list Files.UploadedFile,
    Files.get_api_files mime_lookup d = Http.json (Files.Listing l) 200
    ∧ (∀ name, name ∈ Files.filename <$> l
               ↔ is_Some (d !! name) ∧ files_allowed name)
    ∧ NoDup (Files.filename <$> l)
    ∧ Forall (files_describes mime_lookup d) l
    ∧ StronglySorted (descending Files.uploadDate) l.
Proof.
  destruct (get_api_files_spec mime_lookup d)
    as (l & Hl & Hperm & Hdesc & Hsort).
  exists l. split; [done|]. split; [|split; [|done]].
  - intros name. by apply files_listed_iff.
  - rewrite Hperm. apply NoDup_filter, NoDup_readdir.
Qed.

(** X13: the upload handler of the file server answers 400 without
    writing when there is no file, when the file is larger than 500 MiB
    ("File too large. Limit is 500MB") and when the extension is not
    allowed, naming the lower-cased extension in the message when the
    extension is made of ASCII characters; an allowed
    file within the limit is written under [now-name] and answered 200
    with that name, the display name, the size, the url and the media type
    of the lower-cased extension.  No answer other than 200 comes with a
    changed directory. *)
Theorem files_upload_outcomes
    (mime_lookup : string → option string)
    (d : Fs.directory) (entry : FormData.entry) (now : Z) :
  let result := Files.post_api_upload mime_lookup d entry now in
  (entry = FormData.Null →
     result = (d, Http.json (Files.Error "No file provided") 400))
  ∧ (∀ file, entry = FormData.Upload file →
       FormData.size file > Files.MAX_FILE_SIZE →
       result
       = (d, Http.json (Files.Error "File too large. Limit is 500MB") 400))
  ∧ (∀ file, entry = FormData.Upload file →
       FormData.size file <= Files.MAX_FILE_SIZE →
       ¬ files_allowed (FormData.name file) →
       result.1 = d
       ∧ Http.status result.2 = 400
       ∧ (all_chars is_ascii (Path.extname (FormData.name file)) = true →
          result
          = (d, Http.json
                  (Files.Error
                     ("Extension "
                      +:+ JsString.toLowerCase
                            (Path.extname (FormData.name file))
                      +:+ " not allowed")) 400)))
  ∧ (∀ file, entry = FormData.Upload file →
       FormData.size file <= Files.MAX_FILE_SIZE →
       files_allowed (FormData.name file) →
       no_slash (FormData.name file) = true →
       let filename := JsNumber.Z_toString now +:+ "-" +:+ FormData.name file in
       ∃ r, result
            = (Fs.write d filename (FormData.arrayBuffer file) now,
               Http.json (Files.Uploaded r) 200)
            ∧ Files.up_filename r = filename
            ∧ Files.up_originalName r = FormData.name file
            ∧ Files.up_size r = FormData.size file
            ∧ Files.up_url r = "/files/uploads/" +:+ filename
            ∧ Files.up_mimeType r
              = mime_lookup
                  (JsString.toLowerCase (Path.extname (FormData.name file))))
  ∧ (Http.status result.2 ≠ 200 → result.1 = d).
Proof.
  intros result. subst result. unfold Files.post_api_upload.
  split; [|split; [|split; [|split]]].
  - by intros ->.
  - intros file -> Hsize.
    destruct (Z.gtb_spec (FormData.size file) Files.MAX_FILE_SIZE); [done | lia].
  - intros file -> Hsize Hext. unfold files_allowed in Hext.
    destruct (Z.gtb_spec (FormData.size file) Files.MAX_FILE_SIZE); [lia|].
    by rewrite (bool_decide_eq_false_2 _ Hext).
  - intros file -> Hsize Hext _. unfold files_allowed in Hext.
    destruct (Z.gtb_spec (FormData.size file) Files.MAX_FILE_SIZE); [lia|].
    rewrite (bool_decide_eq_true_2 _ Hext). cbn [negb].
    eexists. split; [reflexivity|]. done.
  - destruct entry as [|s|file]; [done| by destruct (JsString.truthy s) |].
    destruct (FormData.size file >? Files.MAX_FILE_SIZE); [done|].
    by case_bool_decide.
Qed.

Lemma files_upload_witness :
  Files.post_api_upload mime_excerpt papers (FormData.Upload doc_exe) 5
  = (papers, Http.json (Files.Error "Extension .exe not allowed") 400)
  ∧ Files.post_api_upload mime_excerpt papers (FormData.Upload oversized) 5
    = (papers, Http.json (Files.Error "File too large. Limit is 500MB") 400).
Proof.
  split.
  - destruct (proj1 (proj2 (proj2 (files_upload_outcomes
                mime_excerpt papers (FormData.Upload doc_exe) 5))) doc_exe)
      as (_ & _ & Hmsg); [done | by vm_compute | | by apply Hmsg].
    unfold files_allowed. vm_compute. intros H.
    repeat (apply elem_of_cons in H as [H|H]; [discriminate|]).
    by apply elem_of_nil in H.
  - apply (proj1 (proj2 (files_upload_outcomes
              mime_excerpt papers (FormData.Upload oversized) 5)) oversized);
      [done | by vm_compute].
Defined.

(** X14: for a name that passes the security check, the delete
    handler of the file server removes the file of that name and answers
    200, other files staying as they are; afterwards a second delete and a
    stream request are answered 404 "File not found" and the listing no
    longer has the name.  When there is no such file the answer is 404. *)
Theorem files_remove_of_validated_name
    (mime_lookup : string → option string) (d : Fs.directory) (name : string) :
  path_traversal name = false →
  (is_Some (d !! name) →
     let d' := delete name d in
     Files.delete_api_files d name
     = (d', Http.json (Files.Message "File deleted successfully") 200)
     ∧ (∀ other, other ≠ name → d' !! other = d !! other)
     ∧ Files.delete_api_files d' name
       = (d', Http.json (Files.Error "File not found") 404)
     ∧ Files.get_api_stream mime_lookup d' name None
       = Http.json (Files.Error "File not found") 404
     ∧ ∃ l, Files.get_api_files mime_lookup d' = Http.json (Files.Listing l) 200
            ∧ name ∉ Files.filename <$> l)
  ∧ (d !! name = None →
     Files.delete_api_files d name
     = (d, Http.json (Files.Error "File not found") 404)).
Proof.
  intros Hvalid. split.
  - intros Hsome d'. split; [|split; [|split; [|split]]].
    + unfold Files.delete_api_files, Fs.existsSync, Fs.unlink.
      rewrite Hvalid. by rewrite bool_decide_eq_true_2.
    + intros other Hne. by apply lookup_delete_ne.
    + apply files_delete_absent; [done | apply lookup_delete_eq].
    + unfold Files.get_api_stream, d'. by rewrite Hvalid, lookup_delete_eq.
    + destruct (get_api_files_spec mime_lookup d') as (l & Hl & Hperm & _).
      exists l. split; [done|]. rewrite (files_listed_iff d' l name Hperm).
      unfold d'. rewrite lookup_delete_eq. by intros [[? ?] _].
  - by apply files_delete_absent.
Qed.

Lemma files_remove_witness :
  Files.delete_api_files papers "1700000000000-paper.pdf"
  = (delete "1700000000000-paper.pdf" papers,
     Http.json (Files.Message "File deleted successfully") 200)
  ∧ Files.delete_api_files papers "missing.pdf"
    = (papers, Http.json (Files.Error "File not found") 404).
Proof.
  split.
  - destruct (files_remove_of_validated_name
                mime_excerpt papers "1700000000000-paper.pdf" eq_refl)
      as (H & _). apply H. by vm_compute; eauto.
  - destruct (files_remove_of_validated_name
                mime_excerpt papers "missing.pdf" eq_refl)
      as (_ & H). apply H. reflexivity.
Defined.

(** X15: every streamed answer of the file server is labelled with the
    media type resolved for the requested name; a name whose extension
    mime-types does not know is answered whole as
    [application/octet-stream], with or without Range header; for a video
    type, [bytes=start-end] is answered 206 with the headers and the slice
    of the ranged branch. *)
Theorem files_stream_content_type
    (mime_lookup : string → option string)
    (d : Fs.directory) (filename : string) (file : Fs.file) :
  path_traversal filename = false →
  d !! filename = Some file →
  let bytes := Fs.content file in
  let mimeType := Files.resolve_mimeType mime_lookup filename in
  let respond := Files.get_api_stream mime_lookup d filename in
  (∀ range, Http.header (Http.headers (respond range)) "Content-Type"
            = Some mimeType)
  ∧ (mime_lookup (Path.extname filename) = None →
     ∀ range, respond range
              = Http.full_content bytes "application/octet-stream")
  ∧ (JsString.startsWith mimeType "video/" = true →
     ∀ start end_ : N, safe start → safe end_ →
       respond (Some ("bytes=" +:+ JsNumber.digits_of_N start +:+ "-"
                      +:+ JsNumber.digits_of_N end_))
       = {| Http.status := 206;
            Http.headers :=
              [("Content-Range",
                 "bytes " +:+ JsNumber.digits_of_N start +:+ "-"
                 +:+ JsNumber.digits_of_N end_ +:+ "/"
                 +:+ JsNumber.Z_toString (Fs.file_size file));
               ("Accept-Ranges", "bytes");
               ("Content-Length",
                 JsNumber.Z_toString (Z.of_N end_ - Z.of_N start + 1));
               ("Content-Type", mimeType)];
            Http.payload :=
              Http.Stream (Fs.slice bytes (JsNumber.Num (Z.of_N start))
                             (JsNumber.Num (Z.of_N end_ + 1))) |}).
Proof.
  intros Hvalid Hfile bytes mimeType respond.
  assert (Hresp : ∀ range, respond range
    = match Http.given range with
      | Some r =>
          if JsString.startsWith mimeType "video/"
          then Http.partial_content bytes r mimeType
          else Http.full_content bytes mimeType
      | None => Http.full_content bytes mimeType
      end) by (intros; by apply files_stream_present).
  split; [|split].
  - intros range. rewrite Hresp.
    destruct (Http.given range); [|done].
    by destruct (JsString.startsWith mimeType "video/").
  - intros Hnone range. rewrite Hresp.
    assert (mimeType = "application/octet-stream") as ->
      by (unfold mimeType, Files.resolve_mimeType; by rewrite Hnone).
    by destruct (Http.given range).
  - intros Hvideo start end_ _ _. rewrite Hresp.
    assert (Hgiven : ∀ r, r ≠ EmptyString → Http.given (Some r) = Some r)
      by (by intros [|??]).
    rewrite Hgiven by done. rewrite Hvideo.
    by rewrite partial_content_closed.
Qed.

Lemma files_stream_witness :
  Http.header
    (Http.headers (Files.get_api_stream mime_excerpt webm_uploads
                     "7-talk.webm" (Some "bytes=0-9")))
    "Content-Type" = Some "video/webm"
  ∧ Http.status (Files.get_api_stream mime_excerpt webm_uploads
                   "7-talk.webm" (Some "bytes=0-9")) = 206
  ∧ Files.get_api_stream mime_excerpt bin_uploads
      "data.bin" (Some "bytes=0-0")
    = Http.full_content (Fs.content notes) "application/octet-stream".
Proof.
  split; [|split].
  - destruct (files_stream_content_type mime_excerpt webm_uploads
                "7-talk.webm" clip) as (H & _);
      [reflexivity | by vm_compute | apply H].
  - destruct (files_stream_content_type mime_excerpt webm_uploads
                "7-talk.webm" clip) as (_ & _ & H);
      [reflexivity | by vm_compute |].
    change "bytes=0-9" with ("bytes=" +:+ JsNumber.digits_of_N 0 +:+ "-"
                             +:+ JsNumber.digits_of_N 9).
    rewrite H; [done | reflexivity | by vm_compute | by vm_compute].
  - destruct (files_stream_content_type mime_excerpt bin_uploads
                "data.bin" notes) as (_ & H & _);
      [reflexivity | by vm_compute | by apply H].
Defined.

(** X16: for a stored file whose extension mime-types resolves to
    [video/mp4], the stream handlers of the two servers answer every
    request alike: same status, same headers, same bytes. *)
Theorem servers_agree_on_mp4
    (mime_lookup : string → option string)
    (d : Fs.directory) (filename : string) (file : Fs.file)
    (range : option string) :
  path_traversal filename = false →
  d !! filename = Some file →
  mime_lookup (Path.extname filename) = Some "video/mp4" →
  let a := Be.get_api_stream d filename range in
  let b := Files.get_api_stream mime_lookup d filename range in
  Http.status a = Http.status b
  ∧ Http.headers a = Http.headers b
  ∧ streamed a = streamed b
  ∧ ∃ bytes, streamed a = Some bytes.
Proof.
  intros Hvalid Hfile Hmime a b. subst a b.
  rewrite (be_stream_present d filename file) by done.
  rewrite (files_stream_present mime_lookup d filename file) by done.
  unfold Files.resolve_mimeType. rewrite Hmime. cbn.
  destruct (Http.given range); repeat split; eauto.
Qed.

Lemma servers_agree_witness :
  Http.headers (Be.get_api_stream uploads "1700000000000-clip.mp4"
                  (Some "bytes=0-99"))
  = Http.headers (Files.get_api_stream mime_excerpt uploads
                    "1700000000000-clip.mp4" (Some "bytes=0-99")).
Proof.
  destruct (servers_agree_on_mp4 mime_excerpt uploads
              "1700000000000-clip.mp4" clip (Some "bytes=0-99"))
    as (_ & H & _); [reflexivity | by vm_compute | reflexivity | exact H].
Defined.
